(** * mcp-server-llmling: control-plane gateway and notification dispatcher

    A shallow embedding of
    - [src/mcp_server_llmling/injection/routes.py] (the HTTP / WebSocket
      gateway), and
    - [src/mcp_server_llmling/server.py], [src/mcp_server_llmling/observers.py]
      (the notification dispatcher, its tracked tasks and the registry
      observers),
    together with the properties the specification states about them.

    Python exceptions are values of [Exn]; a call that may raise returns a
    sum, [inl e] for "raised [e]" and [inr v] for "returned [v]".  Dicts
    whose iteration order matters (request payloads) are association lists;
    dicts and sets used as maps are stdpp [gmap]s. *)

From Stdlib Require Import ZArith Bool Lia PrimFloat.
From stdpp Require Import base option list gmap strings pretty fin_maps.

Set Warnings "-register-all,-clear-no-such-hyp".


(** ** Python exceptions *)

(** The exception classes the handlers discriminate on.  [OtherException]
    stands for every other subclass of [Exception]. *)
Inductive ExnClass :=
| RuntimeErrorC
| KeyErrorC
| ValueErrorC
| AttributeErrorC
| UnboundLocalErrorC
| OtherException.

(** An exception instance: its class and [str(e)]. *)
Record Exn := mkExn { exn_class : ExnClass; exn_str : string }.

Definition is_RuntimeError (e : Exn) : bool :=
  match exn_class e with RuntimeErrorC => true | _ => false end.

Definition is_KeyError (e : Exn) : bool :=
  match exn_class e with KeyErrorC => true | _ => false end.

(** [raised r] holds when the call raised, [returned r] when it returned. *)
Definition raised {A} (r : Exn + A) : bool :=
  match r with inl _ => true | inr _ => false end.

Definition returned {A} (r : Exn + A) : bool := negb (raised r).

(** ** Effects: state passing with exceptions

    [Eff S A] is a computation over a mutable state [S] that returns an [A]
    or raises; the state reached when it raises is kept, as mutations made
    before a Python exception are. *)

Definition Eff (S A : Type) : Type := S -> S * (Exn + A).

Definition eff_ret {S A} (a : A) : Eff S A := fun s => (s, inr a).

Definition eff_bind {S A B} (k : A -> Eff S B) (c : Eff S A) : Eff S B :=
  fun s =>
    match c s with
    | (s', inr a) => k a s'
    | (s', inl e) => (s', inl e)
    end.

Global Instance Eff_ret {S} : MRet (Eff S) := @eff_ret S.
Global Instance Eff_bind {S} : MBind (Eff S) := @eff_bind S.

(** [raise e] *)
Definition raise {S A} (e : Exn) : Eff S A := fun s => (s, inl e).

(** A pure call that may raise. *)
Definition lift {S A} (r : Exn + A) : Eff S A := fun s => (s, r).

(** A state update that cannot raise. *)
Definition modify {S} (f : S -> S) : Eff S unit := fun s => (f s, inr tt).

Definition gets {S A} (f : S -> A) : Eff S A := fun s => (s, inr (f s)).

(** A mutating call on the whole state that may raise, leaving the state
    as it was when it does. *)
Definition call {S} (f : S -> Exn + S) : Eff S unit :=
  fun s => match f s with inr s' => (s', inr tt) | inl e => (s, inl e) end.

(** [try: body except <clauses>]: the first clause whose class test
    accepts the exception handles it; with none, it propagates. *)
Fixpoint select_handler {S A} (clauses : list ((Exn -> bool) * (Exn -> Eff S A)))
    (e : Exn) : Eff S A :=
  match clauses with
  | [] => raise e
  | (accepts, handler) :: rest =>
      if accepts e then handler e else select_handler rest e
  end.

Definition try_except {S A} (body : Eff S A)
    (clauses : list ((Exn -> bool) * (Exn -> Eff S A))) : Eff S A :=
  fun s =>
    match body s with
    | (s', inr a) => (s', inr a)
    | (s', inl e) => select_handler clauses e s'
    end.

(** [try: body finally: final]: [final] runs on both exits; an exception
    of [body] propagates after it unless [final] raises itself. *)
Definition try_finally {S A} (body : Eff S A) (final : Eff S unit) : Eff S A :=
  fun s =>
    match body s with
    | (s', r) =>
        match final s' with
        | (s'', inr _) => (s'', r)
        | (s'', inl e) => (s'', inl e)
        end
    end.

(** [for x in l: body x] *)
Fixpoint for_each {S A} (body : A -> Eff S unit) (l : list A) : Eff S unit :=
  match l with
  | [] => mret tt
  | x :: rest => body x ≫= λ _, for_each body rest
  end.

(** [except Exception] accepts every modelled exception. *)
Definition Exception (e : Exn) : bool := true.

(** ** Decoded JSON values *)

Inductive Json :=
| JNull
| JBool (b : bool)
| JNum (n : Z)
| JStr (s : string)
| JList (l : list Json)
| JDict (d : list (string * Json)).

(** Python truthiness of a decoded value ([if x := ...]). *)
Definition truthy (j : Json) : bool :=
  match j with
  | JNull => false
  | JBool b => b
  | JNum n => negb (n =? 0)%Z
  | JStr s => negb (String.eqb s "")
  | JList l => match l with [] => false | _ => true end
  | JDict d => match d with [] => false | _ => true end
  end.

(** [d.get(key)] on a mapping held as an association list; a missing key
    gives [None], which is [JNull]. *)
Fixpoint dict_get (key : string) (d : list (string * Json)) : Json :=
  match d with
  | [] => JNull
  | (k, v) :: rest => if String.eqb k key then v else dict_get key rest
  end.

(** [type(x).__name__] *)
Definition py_type_name (j : Json) : string :=
  match j with
  | JNull => "NoneType"
  | JBool _ => "bool"
  | JNum _ => "int"
  | JStr _ => "str"
  | JList _ => "list"
  | JDict _ => "dict"
  end.

(** The [AttributeError] of calling a dict method on another value. *)
Definition no_attribute (j : Json) (attr : string) : Exn :=
  mkExn AttributeErrorC
        ("'" +:+ py_type_name j +:+ "' object has no attribute '" +:+ attr +:+ "'").

(** [x.items()] *)
Definition py_items (j : Json) : Exn + list (string * Json) :=
  match j with
  | JDict d => inr d
  | _ => inl (no_attribute j "items")
  end.

(** [x.get(key)] *)
Definition py_get (j : Json) (key : string) : Exn + Json :=
  match j with
  | JDict d => inr (dict_get key d)
  | _ => inl (no_attribute j "get")
  end.

(** ** The gateway: [injection/routes.py] *)

Module Gateway.

Inductive ComponentType := CT_resource | CT_tool | CT_prompt.
Inductive Status := St_success | St_error.

(** [ComponentResponse] as declared in [injection.py]. *)
Record ComponentResponse := mkComponentResponse {
  status : Status;
  message : string;
  component_type : ComponentType;
  name : string
}.

(** Modelled from the spec: [injection/models.py] is missing; the
    success and error outcomes share the component-outcome shape
    [{status, message, component_type, name}] and differ in [status],
    as the older [injection.py] builds them by hand. *)
Definition SuccessResponse (msg : string) (ct : ComponentType) (n : string)
  : ComponentResponse :=
  {| status := St_success; message := msg; component_type := ct; name := n |}.

(** Modelled from the spec: [injection/models.py] is missing; see
    [SuccessResponse]. *)
Definition ErrorResponse (msg : string) (ct : ComponentType) (n : string)
  : ComponentResponse :=
  {| status := St_error; message := msg; component_type := ct; name := n |}.

(** [BulkUpdateResponse]: the per-item results and the
    [{"success": n, "error": m}] summary dict. *)
Record BulkUpdateResponse := mkBulkUpdateResponse {
  results : list ComponentResponse;
  summary : gmap string nat
}.

(** [HTTPException(status_code, detail)]. *)
Record HTTPException := mkHTTPException { status_code : nat; detail : string }.

(** What a route handler does: return a body, raise an [HTTPException]
    (which the framework turns into that status), or let another
    exception escape. *)
Inductive Outcome (A : Type) :=
| Returned (a : A)
| HTTPError (e : HTTPException)
| Unhandled (e : Exn).
Arguments Returned {A} a.
Arguments HTTPError {A} e.
Arguments Unhandled {A} e.

Global Instance ComponentType_eq_dec : EqDecision ComponentType :=
  ltac:(solve_decision).
Global Instance Status_eq_dec : EqDecision Status :=
  ltac:(solve_decision).

Section Routes.

(** The collaborators the routes call into.  [Runtime] is the state of
    [server.llm_server.runtime] (its resource, tool and prompt
    registries); [Resource] and [ToolConfig] are the validated
    component values. *)
Context {Runtime Resource ToolConfig : Type}.

(** [ConfigUpdateRequest]. *)
Record ConfigUpdateRequest := mkConfigUpdateRequest {
  resources : option (list (string * Resource));
  tools : option (list (string * ToolConfig));
  replace_existing : bool
}.

Inductive MessageType := Update | Query | Error.

(** The six resource model classes [inject_config] dispatches to. *)
Inductive ResourceClass :=
| PathResource | TextResource | CLIResource
| SourceResource | CallableResource | ImageResource.

(** [WebSocketMessage]; [data] is [ConfigUpdateRequest | dict]. *)
Record WebSocketMessage := mkWebSocketMessage {
  msg_type : MessageType;
  msg_data : ConfigUpdateRequest + list (string * Json);
  msg_request_id : option string
}.

(** The registries and the validation library, as the routes use them.
    A registration or deletion that raises leaves the registry as it
    was (each add or remove is atomic). *)
Class Collaborators := {
  (** [runtime.register_resource(name, resource, replace=...)] *)
  register_resource : string -> Resource -> bool -> Runtime -> Exn + Runtime;
  (** [runtime._tool_registry.register(name, tool, replace=...)] *)
  tool_registry_register : string -> ToolConfig -> bool -> Runtime -> Exn + Runtime;
  (** [del runtime._resource_registry[name]] *)
  resource_registry_delitem : string -> Runtime -> Exn + Runtime;
  (** [del runtime._tool_registry[name]] *)
  tool_registry_delitem : string -> Runtime -> Exn + Runtime;
  list_resource_names : Runtime -> list string;
  list_tool_names : Runtime -> list string;
  list_prompt_names : Runtime -> list string;
  (** [PathResource.model_validate] and its five siblings *)
  model_validate : ResourceClass -> Json -> Exn + Resource;
  ToolConfig_model_validate : Json -> Exn + ToolConfig;
  ConfigUpdateRequest_model_validate :
    list (string * Json) -> Exn + ConfigUpdateRequest;
  WebSocketMessage_model_validate : Json -> Exn + WebSocketMessage;
  (** Python's [str] on a decoded value *)
  py_str : Json -> string
}.

Context `{Collaborators}.

(** *** [bulk_update] *)

(** [summary[key] += 1] *)
Definition incr (key : string) (summary : gmap string nat) : gmap string nat :=
  alter S key summary.

(** The loop state: the runtime, [responses] and [summary]. *)
Definition BulkState : Type := Runtime * list ComponentResponse * gmap string nat.

(** One iteration of [for name, resource in request.resources.items()]. *)
Definition bulk_resource_step (replace : bool) (st : BulkState)
    (item : string * Resource) : BulkState :=
  let '(rt, responses, summary) := st in
  let '(name, resource) := item in
  match register_resource name resource replace rt with
  | inr rt' =>
      let msg := "Resource " +:+ name +:+ " registered" in
      let res := SuccessResponse msg CT_resource name in
      (rt', responses ++ [res], incr "success" summary)
  | inl e =>
      let er := ErrorResponse (exn_str e) CT_resource name in
      (rt, responses ++ [er], incr "error" summary)
  end.

(** One iteration of [for name, tool in request.tools.items()]. *)
Definition bulk_tool_step (replace : bool) (st : BulkState)
    (item : string * ToolConfig) : BulkState :=
  let '(rt, responses, summary) := st in
  let '(name, tool) := item in
  match tool_registry_register name tool replace rt with
  | inr rt' =>
      let msg := "Tool " +:+ name +:+ " registered" in
      let res := SuccessResponse msg CT_tool name in
      (rt', responses ++ [res], incr "success" summary)
  | inl e =>
      let er := ErrorResponse (exn_str e) CT_tool name in
      (rt, responses ++ [er], incr "error" summary)
  end.

(** [if request.resources:] is false for [None] and for the empty
    dict; the loop over an empty dict does nothing either way. *)
Definition items_of {A} (o : option (list (string * A))) : list (string * A) :=
  match o with
  | Some (x :: l) => x :: l
  | _ => []
  end.

Definition bulk_update (request : ConfigUpdateRequest) (rt : Runtime)
  : Runtime * BulkUpdateResponse :=
  let st0 : BulkState := (rt, [], {["success" := 0; "error" := 0]}) in
  let st1 :=
    fold_left (bulk_resource_step (replace_existing request))
              (items_of (resources request)) st0 in
  let st2 :=
    fold_left (bulk_tool_step (replace_existing request))
              (items_of (tools request)) st1 in
  let '(rt', responses, summary) := st2 in
  (rt', {| results := responses; summary := summary |}).

(** *** [inject_config] *)

(** The [match resource_type] of [inject_config]: the class whose
    literal equals the discriminator, if any. *)
Definition match_resource_type (resource_type : Json) : option ResourceClass :=
  match resource_type with
  | JStr t =>
      if String.eqb t "path" then Some PathResource
      else if String.eqb t "text" then Some TextResource
      else if String.eqb t "cli" then Some CLIResource
      else if String.eqb t "source" then Some SourceResource
      else if String.eqb t "callable" then Some CallableResource
      else if String.eqb t "image" then Some ImageResource
      else None
  | _ => None
  end.

(** The body of [for name, resource in resources.items()]. *)
Definition inject_resource (item : string * Json) : Eff Runtime unit :=
  let '(name, resource) := item in
  resource_type ← lift (py_get resource "type");
  validated ← lift
    match match_resource_type resource_type with
    | Some cls => model_validate cls resource
    | None =>
        let msg := "Unknown resource type: " +:+ py_str resource_type in
        inl (mkExn ValueErrorC msg)
    end;
  call (register_resource name validated true).

(** The body of [for name, tool in tools.items()]. *)
Definition inject_tool (item : string * Json) : Eff Runtime unit :=
  let '(name, tool) := item in
  validated ← lift (ToolConfig_model_validate tool);
  call (tool_registry_register name validated true).

(** [if section := config.get(key): for ... in section.items(): body] *)
Definition inject_section (config : list (string * Json)) (key : string)
    (body : string * Json -> Eff Runtime unit) : Eff Runtime unit :=
  let section := dict_get key config in
  if truthy section
  then items ← lift (py_items section); for_each body items
  else mret tt.

(** The [try] block of [inject_config].  The older [injection.py] holds
    the same handler, with the outcome written out field by field. *)
Definition inject_config_body (config : list (string * Json))
  : Eff Runtime ComponentResponse :=
  inject_section config "resources" inject_resource;;
  inject_section config "tools" inject_tool;;
  let msg := "Config injected successfully" in
  let name := "yaml_injection" in
  mret (SuccessResponse msg CT_tool name).

Definition inject_config (config : list (string * Json)) (rt : Runtime)
  : Runtime * Outcome ComponentResponse :=
  match inject_config_body config rt with
  | (rt', inr result) => (rt', Returned result)
  | (rt', inl e) =>
      (rt', HTTPError {| status_code := 400; detail := exn_str e |})
  end.

(** *** Single-component routes *)

Definition list_components (rt : Runtime) : list (string * list string) :=
  [ ("resources", list_resource_names rt);
    ("tools", list_tool_names rt);
    ("prompts", list_prompt_names rt) ].

Definition add_resource (name : string) (resource : Resource) (rt : Runtime)
  : Runtime * Outcome ComponentResponse :=
  match register_resource name resource true rt with
  | inr rt' =>
      let msg := "Resource " +:+ name +:+ " registered" in
      (rt', Returned (SuccessResponse msg CT_resource name))
  | inl e => (rt, HTTPError {| status_code := 400; detail := exn_str e |})
  end.

Definition remove_resource (name : string) (rt : Runtime)
  : Runtime * Outcome ComponentResponse :=
  match resource_registry_delitem name rt with
  | inr rt' =>
      let msg := "Resource " +:+ name +:+ " removed" in
      (rt', Returned (SuccessResponse msg CT_resource name))
  | inl e =>
      if is_KeyError e
      then (rt, HTTPError {| status_code := 404;
                             detail := "Resource " +:+ name +:+ " not found" |})
      else (rt, Unhandled e)
  end.

Definition add_tool (name : string) (tool : ToolConfig) (rt : Runtime)
  : Runtime * Outcome ComponentResponse :=
  match tool_registry_register name tool true rt with
  | inr rt' =>
      let msg := "Tool " +:+ name +:+ " registered" in
      (rt', Returned (SuccessResponse msg CT_tool name))
  | inl e => (rt, HTTPError {| status_code := 400; detail := exn_str e |})
  end.

Definition remove_tool (name : string) (rt : Runtime)
  : Runtime * Outcome ComponentResponse :=
  match tool_registry_delitem name rt with
  | inr rt' =>
      let msg := "Tool " +:+ name +:+ " removed" in
      (rt', Returned (SuccessResponse msg CT_tool name))
  | inl e =>
      if is_KeyError e
      then (rt, HTTPError {| status_code := 404;
                             detail := "Tool " +:+ name +:+ " not found" |})
      else (rt, Unhandled e)
  end.

(** *** [websocket_endpoint] *)

Inductive ResponseType := ws_success | ws_error | ws_update.

(** The [data] field of [WebSocketResponse]:
    [ComponentResponse | list[ComponentResponse] | dict[str, Any]]. *)
Inductive ResponseData :=
| DataComponent (r : ComponentResponse)
| DataComponents (l : list ComponentResponse)
| DataDict (d : list (string * Json)).

Record WebSocketResponse := mkWebSocketResponse {
  resp_type : ResponseType;
  resp_data : ResponseData;
  resp_request_id : option string;
  resp_message : option string
}.

(** One connection: the shared runtime, the handler's local variable
    [message] (unbound until the first frame validates) and the
    envelopes sent so far on this connection. *)
Record Connection := mkConnection {
  conn_runtime : Runtime;
  conn_message : option WebSocketMessage;
  conn_sent : list WebSocketResponse
}.

(** [await websocket.send_json(response.model_dump())] to a connected
    peer. *)
Definition send_json (response : WebSocketResponse) : Eff Connection unit :=
  modify (λ c, {| conn_runtime := conn_runtime c;
                  conn_message := conn_message c;
                  conn_sent := conn_sent c ++ [response] |}).

(** [message = WebSocketMessage.model_validate(raw_data)] *)
Definition bind_message (raw_data : Json) : Eff Connection WebSocketMessage :=
  message ← lift (WebSocketMessage_model_validate raw_data);
  modify (λ c, {| conn_runtime := conn_runtime c;
                  conn_message := Some message;
                  conn_sent := conn_sent c |});;
  mret message.

(** [response = await bulk_update(req)] *)
Definition await_bulk_update (req : ConfigUpdateRequest)
  : Eff Connection BulkUpdateResponse :=
  λ c, let '(rt', response) := bulk_update req (conn_runtime c) in
       ({| conn_runtime := rt';
           conn_message := conn_message c;
           conn_sent := conn_sent c |}, inr response).

Definition names_json (components : list (string * list string))
  : list (string * Json) :=
  map (λ '(k, names), (k, JList (map JStr names))) components.

(** The inner [try] block, for one received frame. *)
Definition handle_message (raw_data : Json) : Eff Connection unit :=
  message ← bind_message raw_data;
  match msg_type message with
  | Update =>
      match msg_data message with
      | inr d =>
          req ← lift (ConfigUpdateRequest_model_validate d);
          response ← await_bulk_update req;
          send_json {| resp_type := ws_success;
                       resp_data := DataComponents (results response);
                       resp_request_id := msg_request_id message;
                       resp_message := Some "Components updated successfully" |}
      | inl _ => mret tt
      end
  | Query =>
      components ← gets (λ c, list_components (conn_runtime c));
      send_json {| resp_type := ws_success;
                   resp_data := DataDict (names_json components);
                   resp_request_id := msg_request_id message;
                   resp_message := None |}
  | Error => mret tt
  end.

(** The [except Exception] clause: [getattr(message, "request_id", None)]
    reads the local [message], which is the last frame that validated
    and is unbound when none has. *)
Definition report_failure (e : Exn) : Eff Connection unit :=
  let error_msg := "Operation failed" in
  bound ← gets conn_message;
  match bound with
  | Some message =>
      send_json {| resp_type := ws_error;
                   resp_data := DataDict [];
                   resp_request_id := msg_request_id message;
                   resp_message := Some error_msg |}
  | None =>
      raise (mkExn UnboundLocalErrorC
        "cannot access local variable 'message' where it is not associated with a value")
  end.

(** One iteration of [while True], after [receive_json] returned. *)
Definition handle_frame (raw_data : Json) : Eff Connection unit :=
  try_except (handle_message raw_data) [(Exception, report_failure)].

(** The handler on a peer that sends [frames] and then disconnects:
    [receive_json] raises [WebSocketDisconnect], which ends the loop
    without an error. *)
Definition websocket_endpoint (frames : list Json) (rt : Runtime)
  : Connection * (Exn + unit) :=
  for_each handle_frame frames
    {| conn_runtime := rt; conn_message := None; conn_sent := [] |}.

(** *** A batch read item by item

    The specification's reading of a batch, to compare [bulk_update]
    with: every item is applied on its own to the registry the items
    before it left, and its outcome recorded. *)

Definition apply_resource (replace : bool) (item : string * Resource)
    (rt : Runtime) : Runtime * ComponentResponse :=
  match register_resource item.1 item.2 replace rt with
  | inr rt' =>
      (rt', SuccessResponse ("Resource " +:+ item.1 +:+ " registered")
                            CT_resource item.1)
  | inl e => (rt, ErrorResponse (exn_str e) CT_resource item.1)
  end.

Definition apply_tool (replace : bool) (item : string * ToolConfig)
    (rt : Runtime) : Runtime * ComponentResponse :=
  match tool_registry_register item.1 item.2 replace rt with
  | inr rt' =>
      (rt', SuccessResponse ("Tool " +:+ item.1 +:+ " registered")
                            CT_tool item.1)
  | inl e => (rt, ErrorResponse (exn_str e) CT_tool item.1)
  end.

Fixpoint apply_each {A} (apply : A -> Runtime -> Runtime * ComponentResponse)
    (items : list A) (rt : Runtime) : Runtime * list ComponentResponse :=
  match items with
  | [] => (rt, [])
  | item :: rest =>
      let '(rt1, r) := apply item rt in
      let '(rt2, rs) := apply_each apply rest rt1 in
      (rt2, r :: rs)
  end.

(** Whether the registry accepts each resource entry of a batch, in
    turn: [true] for an entry that is valid for it, [false] for one
    whose registration raises. *)
Fixpoint accepted (replace : bool) (items : list (string * Resource))
    (rt : Runtime) : list bool :=
  match items with
  | [] => []
  | (name, resource) :: rest =>
      match register_resource name resource replace rt with
      | inr rt' => true :: accepted replace rest rt'
      | inl _ => false :: accepted replace rest rt
      end
  end.

(** The summary key an outcome counts under. *)
Definition status_key (r : ComponentResponse) : string :=
  match status r with St_success => "success" | St_error => "error" end.

Fixpoint tally (rs : list ComponentResponse) (summary : gmap string nat)
  : gmap string nat :=
  match rs with
  | [] => summary
  | r :: rest => tally rest (incr (status_key r) summary)
  end.

(** [model_dump()] of a [ComponentResponse] and of a
    [BulkUpdateResponse]. *)
Definition dump_component (r : ComponentResponse) : Json :=
  JDict [ ("status", JStr (status_key r));
          ("message", JStr (message r));
          ("component_type",
           JStr match component_type r with
                | CT_resource => "resource"
                | CT_tool => "tool"
                | CT_prompt => "prompt"
                end);
          ("name", JStr (name r)) ].

Definition dump_report (response : BulkUpdateResponse) : list (string * Json) :=
  [ ("results", JList (map dump_component (results response)));
    ("summary",
     JDict (map (λ kv : string * nat, (kv.1, JNum (Z.of_nat kv.2)))
                (map_to_list (summary response)))) ].

(** The mapping contract of [del registry[name]] that the removal
    routes rely on: a registered name is removed, a missing one raises
    [KeyError]. *)
Class MappingDeletion := {
  del_resource_present name rt :
    name ∈ list_resource_names rt ->
    ∃ rt', resource_registry_delitem name rt = inr rt'
           ∧ name ∉ list_resource_names rt';
  del_resource_missing name rt :
    name ∉ list_resource_names rt ->
    ∃ e, resource_registry_delitem name rt = inl e ∧ is_KeyError e = true;
  del_tool_present name rt :
    name ∈ list_tool_names rt ->
    ∃ rt', tool_registry_delitem name rt = inr rt'
           ∧ name ∉ list_tool_names rt';
  del_tool_missing name rt :
    name ∉ list_tool_names rt ->
    ∃ e, tool_registry_delitem name rt = inl e ∧ is_KeyError e = true
}.

End Routes.

End Gateway.

(** ** A dict-backed runtime

    The registries and the validation library live outside this
    repository; the routes above are stated over any implementation of
    them.  This module supplies one, to run the routes on concrete
    requests. *)

Module Reference.
Import Gateway.

(** The registries of the external runtime, after the specification's
    data model: one mapping from name to component value per component
    kind; a validated component keeps its payload mapping. *)
Record Runtime := mkRuntime {
  _resource_registry : gmap string (list (string * Json));
  _tool_registry : gmap string (list (string * Json));
  _prompt_registry : gmap string (list (string * Json))
}.

(** [register(name, item, replace)] replaces on conflict when [replace]
    is set and refuses the name otherwise. *)
Definition registry_register {V} (name : string) (item : V) (replace : bool)
    (registry : gmap string V) : Exn + gmap string V :=
  if negb replace && bool_decide (is_Some (registry !! name))
  then inl (mkExn OtherException ("Item already registered: " +:+ name))
  else inr (<[name := item]> registry).

(** [del registry[name]]: removing a missing name is a not-found error
    ([KeyError]). *)
Definition registry_delitem {V} (name : string) (registry : gmap string V)
  : Exn + gmap string V :=
  match registry !! name with
  | Some _ => inr (delete name registry)
  | None => inl (mkExn KeyErrorC ("'" +:+ name +:+ "'"))
  end.

Definition names {V} (registry : gmap string V) : list string :=
  elements (dom registry).

Definition validation_error (what : string) : Exn :=
  mkExn OtherException ("1 validation error for " +:+ what).

Definition class_name (cls : ResourceClass) : string :=
  match cls with
  | PathResource => "PathResource"
  | TextResource => "TextResource"
  | CLIResource => "CLIResource"
  | SourceResource => "SourceResource"
  | CallableResource => "CallableResource"
  | ImageResource => "ImageResource"
  end.

(** The field each resource class requires, as a string. *)
Definition required_field (cls : ResourceClass) : string :=
  match cls with
  | PathResource => "path"
  | TextResource => "content"
  | CLIResource => "command"
  | SourceResource => "import_path"
  | CallableResource => "import_path"
  | ImageResource => "path"
  end.

Definition has_string (key : string) (d : list (string * Json)) : bool :=
  match dict_get key d with JStr _ => true | _ => false end.

(** A payload validates against a resource variant when it is a mapping
    that carries the variant's field. *)
Definition validate_resource (cls : ResourceClass) (j : Json)
  : Exn + list (string * Json) :=
  match j with
  | JDict d =>
      if has_string (required_field cls) d then inr d
      else inl (validation_error (class_name cls))
  | _ => inl (validation_error (class_name cls))
  end.

Definition validate_tool (j : Json) : Exn + list (string * Json) :=
  match j with
  | JDict d =>
      if has_string "import_path" d then inr d
      else inl (validation_error "ToolConfig")
  | _ => inl (validation_error "ToolConfig")
  end.

(** The tagged union [Resource]: dispatch on the [type] discriminator. *)
Definition validate_tagged (j : Json) : Exn + list (string * Json) :=
  match j with
  | JDict d =>
      match match_resource_type (dict_get "type" d) with
      | Some cls => validate_resource cls j
      | None => inl (validation_error "Resource")
      end
  | _ => inl (validation_error "Resource")
  end.

Fixpoint validate_entries {V} (validate : Json -> Exn + V)
    (entries : list (string * Json)) : Exn + list (string * V) :=
  match entries with
  | [] => inr []
  | (name, j) :: rest =>
      match validate j with
      | inl e => inl e
      | inr v =>
          match validate_entries validate rest with
          | inl e => inl e
          | inr vs => inr ((name, v) :: vs)
          end
      end
  end.

Definition validate_mapping {V} (validate : Json -> Exn + V) (j : Json)
  : Exn + option (list (string * V)) :=
  match j with
  | JNull => inr None
  | JDict entries =>
      match validate_entries validate entries with
      | inl e => inl e
      | inr vs => inr (Some vs)
      end
  | _ => inl (validation_error "ConfigUpdateRequest")
  end.

Definition validate_request (d : list (string * Json))
  : Exn + @ConfigUpdateRequest (list (string * Json)) (list (string * Json)) :=
  match validate_mapping validate_tagged (dict_get "resources" d) with
  | inl e => inl e
  | inr rs =>
      match validate_mapping validate_tool (dict_get "tools" d) with
      | inl e => inl e
      | inr ts =>
          match dict_get "replace_existing" d with
          | JNull => inr (mkConfigUpdateRequest rs ts true)
          | JBool b => inr (mkConfigUpdateRequest rs ts b)
          | _ => inl (validation_error "ConfigUpdateRequest")
          end
      end
  end.

Definition validate_message_type (j : Json) : option MessageType :=
  match j with
  | JStr t =>
      if String.eqb t "update" then Some Update
      else if String.eqb t "query" then Some Query
      else if String.eqb t "error" then Some Error
      else None
  | _ => None
  end.

(** A received mapping stays a plain [dict] in [data]; the handler
    validates it into a request itself. *)
Definition validate_message (j : Json)
  : Exn + @WebSocketMessage (list (string * Json)) (list (string * Json)) :=
  match j with
  | JDict d =>
      match validate_message_type (dict_get "type" d), dict_get "data" d with
      | Some t, JDict payload =>
          match dict_get "request_id" d with
          | JNull => inr (mkWebSocketMessage t (inr payload) None)
          | JStr id => inr (mkWebSocketMessage t (inr payload) (Some id))
          | _ => inl (validation_error "WebSocketMessage")
          end
      | _, _ => inl (validation_error "WebSocketMessage")
      end
  | _ => inl (validation_error "WebSocketMessage")
  end.

(** [str] of a discriminator; containers do not occur as one here. *)
Definition str (j : Json) : string :=
  match j with
  | JNull => "None"
  | JBool true => "True"
  | JBool false => "False"
  | JStr s => s
  | JNum n => pretty n
  | JList _ => "[...]"
  | JDict _ => "{...}"
  end.

Definition on_resources (f : gmap string (list (string * Json)) ->
                             Exn + gmap string (list (string * Json)))
    (rt : Runtime) : Exn + Runtime :=
  match f (_resource_registry rt) with
  | inl e => inl e
  | inr reg => inr (mkRuntime reg (_tool_registry rt) (_prompt_registry rt))
  end.

Definition on_tools (f : gmap string (list (string * Json)) ->
                         Exn + gmap string (list (string * Json)))
    (rt : Runtime) : Exn + Runtime :=
  match f (_tool_registry rt) with
  | inl e => inl e
  | inr reg => inr (mkRuntime (_resource_registry rt) reg (_prompt_registry rt))
  end.

Global Instance collaborators
  : @Collaborators Runtime (list (string * Json)) (list (string * Json)) := {|
  register_resource name resource replace :=
    on_resources (registry_register name resource replace);
  tool_registry_register name tool replace :=
    on_tools (registry_register name tool replace);
  resource_registry_delitem name := on_resources (registry_delitem name);
  tool_registry_delitem name := on_tools (registry_delitem name);
  list_resource_names rt := names (_resource_registry rt);
  list_tool_names rt := names (_tool_registry rt);
  list_prompt_names rt := names (_prompt_registry rt);
  model_validate := validate_resource;
  ToolConfig_model_validate := validate_tool;
  ConfigUpdateRequest_model_validate := validate_request;
  WebSocketMessage_model_validate := validate_message;
  py_str := str
|}.

Definition empty : Runtime := mkRuntime ∅ ∅ ∅.

End Reference.

(** ** The dispatcher: [server.py] and [observers.py] *)

Module Dispatcher.

(** An [mcp.ServerSession], as an opaque handle. *)
Definition Session := nat.

(** The server-initiated messages a session can be asked to send. *)
Inductive Notification :=
| ResourceListChanged
| PromptListChanged
| ToolListChanged
| ResourceUpdated (uri : string)
| ProgressNotification (progress_token : string) (progress : float)
                       (total : option float)
| LogMessage (level : string) (data : string).

(** A coroutine object: a call of an [async def] that has not run yet. *)
Inductive Coroutine :=
| Send (session : Session) (n : Notification)
| NotifyResourceListChanged
| NotifyResourceChange (uri : string)
| NotifyPromptListChanged
| NotifyToolListChanged.

(** An [asyncio.Task]: the coroutine it wraps, the copy of the request
    context taken when it was created, and whether [cancel()] was
    called on it. *)
Record Task := mkTask {
  coro : Coroutine;
  context : option Session;
  cancelling : bool
}.

Inductive TaskResult := Completed | Failed (e : Exn) | Cancelled.

Inductive TaskState := Pending (t : Task) | Done (r : TaskResult).

Inductive Level := DEBUG | ERROR.

(** [logger.exception] logs at [ERROR] with the exception attached. *)
Record LogRecord := mkLogRecord {
  levelno : Level;
  log_msg : string;
  exc_info : option Exn
}.

(** The server and the event loop it runs on.  [loop] holds every task
    created so far, in creation order, a task's identity being its
    position; [_tasks] is the server's set of tracked tasks; [outbox]
    holds the notifications handed to a session's transport. *)
Record Server := mkServer {
  _subscriptions : gmap string (gset Session);
  _tasks : gset nat;
  loop : list TaskState;
  log : list LogRecord;
  outbox : list (Session * Notification);
  injection_server : bool
}.

Definition set_tasks (f : gset nat -> gset nat) (s : Server) : Server :=
  mkServer (_subscriptions s) (f (_tasks s)) (loop s) (log s) (outbox s)
           (injection_server s).

Definition set_loop (f : list TaskState -> list TaskState) (s : Server) : Server :=
  mkServer (_subscriptions s) (_tasks s) (f (loop s)) (log s) (outbox s)
           (injection_server s).

Definition set_log (f : list LogRecord -> list LogRecord) (s : Server) : Server :=
  mkServer (_subscriptions s) (_tasks s) (loop s) (f (log s)) (outbox s)
           (injection_server s).

Definition set_outbox (f : list (Session * Notification) ->
                           list (Session * Notification)) (s : Server) : Server :=
  mkServer (_subscriptions s) (_tasks s) (loop s) (log s) (f (outbox s))
           (injection_server s).

Definition logger_debug (msg : string) : Eff Server unit :=
  modify (set_log (λ l, l ++ [mkLogRecord DEBUG msg None])).

Definition logger_exception (msg : string) (e : Exn) : Eff Server unit :=
  modify (set_log (λ l, l ++ [mkLogRecord ERROR msg (Some e)])).

(** [_create_task], called with the event loop running:
    [asyncio.create_task(coro)], [self._tasks.add(task)]; the done
    callback [self._tasks.discard] is run by [finish]. *)
Definition _create_task (c : Coroutine) (ctx : option Session) : Eff Server nat :=
  λ s, let task := length (loop s) in
       (set_tasks (λ ts, {[task]} ∪ ts)
          (set_loop (λ l, l ++ [Pending (mkTask c ctx false)]) s),
        inr task).

(** The [current_session] property: the session of the active request
    context, [RuntimeError] when there is none. *)
Definition current_session (ctx : option Session) : Eff Server Session :=
  match ctx with
  | Some session => mret session
  | None => raise (mkExn RuntimeErrorC "No active request context")
  end.

Section Server.

(** What a session's transport does with a notification, given what
    it has carried so far: [None] when it is delivered, the exception
    otherwise. *)
Variable delivery :
  list (Session * Notification) -> Session -> Notification -> option Exn.

(** [pydantic.AnyUrl(uri)] *)
Variable AnyUrl : string -> Exn + string.

(** [await session.send_*(...)] *)
Definition await_send (session : Session) (n : Notification) : Eff Server unit :=
  λ s, match delivery (outbox s) session n with
       | None => (set_outbox (λ o, o ++ [(session, n)]) s, inr tt)
       | Some e => (s, inl e)
       end.

Definition notify_resource_list_changed (ctx : option Session) : Eff Server unit :=
  try_except
    (session ← current_session ctx;
     await_send session ResourceListChanged)
    [ (is_RuntimeError, λ _, logger_debug "No active session for notification");
      (Exception,
       logger_exception "Failed to send resource list change notification") ].

Definition notify_resource_change (uri : string) (ctx : option Session)
  : Eff Server unit :=
  subscribed ← gets (λ s, bool_decide (uri ∈ dom (_subscriptions s)));
  if subscribed : bool
  then
    try_except
      (session ← current_session ctx;
       url ← lift (AnyUrl uri);
       await_send session (ResourceUpdated url))
      [ (Exception,
         logger_exception
           ("Failed to notify subscribers about resource change: " +:+ uri)) ]
  else mret tt.

Definition notify_prompt_list_changed (ctx : option Session) : Eff Server unit :=
  try_except
    (session ← current_session ctx;
     _create_task (Send session PromptListChanged) ctx;;
     mret tt)
    [ (is_RuntimeError, λ _, logger_debug "No active session for notification");
      (Exception,
       logger_exception "Failed to send prompt list change notification") ].

Definition notify_tool_list_changed (ctx : option Session) : Eff Server unit :=
  try_except
    (session ← current_session ctx;
     _create_task (Send session ToolListChanged) ctx;;
     mret tt)
    [ (is_RuntimeError, λ _, logger_debug "No active session for notification");
      (Exception,
       logger_exception "Failed to send tool list change notification") ].

(** [if description:] is false for [None] and for the empty string. *)
Definition nonempty_description (description : option string) : option string :=
  match description with
  | Some d => if String.eqb d "" then None else Some d
  | None => None
  end.

Definition notify_progress (token : string) (progress : float)
    (total : option float) (description : option string)
    (ctx : option Session) : Eff Server unit :=
  try_except
    (session ← current_session ctx;
     _create_task (Send session (ProgressNotification token progress total)) ctx;;
     match nonempty_description description with
     | Some d => _create_task (Send session (LogMessage "info" d)) ctx;; mret tt
     | None => mret tt
     end)
    [ (Exception, logger_exception "Failed to send progress notification") ].

(** *** The event loop *)

(** Running a coroutine to its end, in the context its task copied. *)
Definition run_coroutine (c : Coroutine) (ctx : option Session) : Eff Server unit :=
  match c with
  | Send session n => await_send session n
  | NotifyResourceListChanged => notify_resource_list_changed ctx
  | NotifyResourceChange uri => notify_resource_change uri ctx
  | NotifyPromptListChanged => notify_prompt_list_changed ctx
  | NotifyToolListChanged => notify_tool_list_changed ctx
  end.

(** A task reaches its result and its done callback discards it from
    the tracked set. *)
Definition finish (task : nat) (r : TaskResult) (s : Server) : Server :=
  set_tasks (λ ts, ts ∖ {[task]}) (set_loop (λ l, <[task := Done r]> l) s).

(** The loop gives a pending task its turn: a task whose cancellation
    was requested ends cancelled, another runs its coroutine. *)
Definition run_task (task : nat) (s : Server) : Server :=
  match loop s !! task with
  | Some (Pending t) =>
      if cancelling t then finish task Cancelled s
      else
        match run_coroutine (coro t) (context t) s with
        | (s', inr _) => finish task Completed s'
        | (s', inl e) => finish task (Failed e) s'
        end
  | _ => s
  end.

(** What else the loop does while a coroutine is suspended in an
    [await]: it runs tasks, and other units of work create tracked
    tasks. *)
Inductive LoopEvent :=
| Run (task : nat)
| Spawn (c : Coroutine) (ctx : option Session).

Definition loop_event (s : Server) (ev : LoopEvent) : Server :=
  match ev with
  | Run task => run_task task s
  | Spawn c ctx => fst (_create_task c ctx s)
  end.

(** One [await] of a collaborator: what the loop does meanwhile and
    whether the awaited call raises. *)
Record Await := mkAwait {
  meanwhile : list LoopEvent;
  outcome : option Exn
}.

Definition await (a : Await) : Eff Server unit :=
  λ s, (fold_left loop_event (meanwhile a) s,
        match outcome a with Some e => inl e | None => inr tt end).

(** *** [shutdown] *)

Inductive ObserverKind := resource_observer | prompt_observer | tool_observer.

(** The collaborators of one [shutdown] call. *)
Record Environment := mkEnvironment {
  injection_server_stop : Await;
  transport_shutdown : Await;
  gather : Await;
  remove_observer : ObserverKind -> option Exn;
  runtime_shutdown : Await
}.

(** [task.cancel()] *)
Definition cancel (st : TaskState) : TaskState :=
  match st with
  | Pending t => Pending (mkTask (coro t) (context t) true)
  | Done r => Done r
  end.

(** [for task in self._tasks: task.cancel()] *)
Definition cancel_tracked : Eff Server unit :=
  modify (λ s,
    set_loop (imap (λ task st,
                 if bool_decide (task ∈ _tasks s) then cancel st else st)) s).

(** [await asyncio.gather] over [self._tasks], with [return_exceptions]:
    unless the wait itself is interrupted, it returns once every task
    it was given is done. *)
Definition await_gather (a : Await) : Eff Server unit :=
  given ← gets (λ s, elements (_tasks s));
  await a;;
  modify (λ s, fold_left (λ s task, run_task task s) given s).

(** The classes of [observers.py]. *)
Definition observer_class (k : ObserverKind) : string :=
  match k with
  | resource_observer => "ResourceObserver"
  | prompt_observer => "PromptObserver"
  | tool_observer => "ToolObserver"
  end.

(** What an observer has besides what every object has: [server], set
    by its [__init__], and the three handlers of its class. *)
Definition observer_attributes (k : ObserverKind) : list string :=
  match k with
  | resource_observer =>
      [ "server"; "_handle_resource_added"; "_handle_resource_modified";
        "_handle_resource_removed" ]
  | prompt_observer =>
      [ "server"; "_handle_prompt_added"; "_handle_prompt_modified";
        "_handle_prompt_removed" ]
  | tool_observer =>
      [ "server"; "_handle_tool_added"; "_handle_tool_modified";
        "_handle_tool_removed" ]
  end.

(** [self.<kind>_observer.<name>], for a name that is not one of
    [object]'s own: the name when the observer has it. *)
Definition observer_getattr (k : ObserverKind) (name : string) : Exn + string :=
  if bool_decide (name ∈ observer_attributes k) then inr name
  else inl (mkExn AttributeErrorC
                  ("'" +:+ observer_class k +:+ "' object has no attribute '"
                   +:+ name +:+ "'")).

(** [self.runtime.remove_observer(self.<kind>_observer.events, ...)]: the
    argument is evaluated first. *)
Definition call_remove_observer (env : Environment) (k : ObserverKind)
  : Eff Server unit :=
  events ← lift (observer_getattr k "events");
  match remove_observer env k with
  | Some e => raise e
  | None => mret tt
  end.

Definition tasks_clear : Eff Server unit := modify (set_tasks (λ _, ∅)).

(** The block under [# Cancel all pending tasks]. *)
Definition cancel_pending (env : Environment) : Eff Server unit :=
  tracked ← gets _tasks;
  if bool_decide (tracked ≠ ∅)
  then cancel_tracked;; await_gather (gather env);; tasks_clear
  else mret tt.

(** The [try] block of [shutdown]. *)
Definition shutdown_try (env : Environment) : Eff Server unit :=
  has_injection ← gets injection_server;
  (if has_injection : bool then await (injection_server_stop env) else mret tt);;
  await (transport_shutdown env);;
  cancel_pending env;;
  call_remove_observer env resource_observer;;
  call_remove_observer env prompt_observer;;
  call_remove_observer env tool_observer;;
  await (runtime_shutdown env).

Definition shutdown (env : Environment) : Eff Server unit :=
  try_finally (shutdown_try env) tasks_clear.

(** *** Observers *)

(** A registry change event, with the arguments a two-argument
    handler receives. *)
Inductive Event (V : Type) :=
| added (key : string) (value : V)
| removed (key : string) (value : V)
| changed (key : string) (value : V).

Context {Resource Loader Prompt Tool : Type}.
Variable get_resource_loader : Resource -> Loader.
Variable create_uri : Loader -> string -> string.

Definition _handle_resource_added (key : string) (resource : Resource)
    (ctx : option Session) : Eff Server unit :=
  _create_task NotifyResourceListChanged ctx;; mret tt.

Definition _handle_resource_modified (key : string) (resource : Resource)
    (ctx : option Session) : Eff Server unit :=
  let loader := get_resource_loader resource in
  let uri := create_uri loader key in
  _create_task (NotifyResourceChange uri) ctx;; mret tt.

Definition _handle_resource_removed (key : string) (resource : Resource)
    (ctx : option Session) : Eff Server unit :=
  _create_task NotifyResourceListChanged ctx;; mret tt.

Definition _handle_prompt_added (key : string) (prompt : Prompt)
    (ctx : option Session) : Eff Server unit :=
  _create_task NotifyPromptListChanged ctx;; mret tt.

Definition _handle_prompt_modified (key : string) (prompt : Prompt)
    (ctx : option Session) : Eff Server unit :=
  _create_task NotifyPromptListChanged ctx;; mret tt.

Definition _handle_prompt_removed (key : string) (prompt : Prompt)
    (ctx : option Session) : Eff Server unit :=
  _create_task NotifyPromptListChanged ctx;; mret tt.

Definition _handle_tool_added (key : string) (tool : Tool)
    (ctx : option Session) : Eff Server unit :=
  _create_task NotifyToolListChanged ctx;; mret tt.

Definition _handle_tool_modified (key : string) (tool : Tool)
    (ctx : option Session) : Eff Server unit :=
  _create_task NotifyToolListChanged ctx;; mret tt.

Definition _handle_tool_removed (key : string) (tool : Tool)
    (ctx : option Session) : Eff Server unit :=
  _create_task NotifyToolListChanged ctx;; mret tt.

(** The connections made in each observer's [__init__]. *)
Definition ResourceObserver (ctx : option Session) (ev : Event Resource)
  : Eff Server unit :=
  match ev with
  | added _ key resource => _handle_resource_added key resource ctx
  | removed _ key resource => _handle_resource_removed key resource ctx
  | changed _ key resource => _handle_resource_modified key resource ctx
  end.

Definition PromptObserver (ctx : option Session) (ev : Event Prompt)
  : Eff Server unit :=
  match ev with
  | added _ key prompt => _handle_prompt_added key prompt ctx
  | removed _ key prompt => _handle_prompt_removed key prompt ctx
  | changed _ key prompt => _handle_prompt_modified key prompt ctx
  end.

Definition ToolObserver (ctx : option Session) (ev : Event Tool)
  : Eff Server unit :=
  match ev with
  | added _ key tool => _handle_tool_added key tool ctx
  | removed _ key tool => _handle_tool_removed key tool ctx
  | changed _ key tool => _handle_tool_modified key tool ctx
  end.

(** The dispatcher call each event stands for, as the specification
    tabulates it: a list-changed notification of the component kind,
    except a changed resource, which is a resource-changed notification
    for the URI its loader derives. *)
Definition resource_dispatch (ev : Event Resource) : Coroutine :=
  match ev with
  | added _ _ _ => NotifyResourceListChanged
  | removed _ _ _ => NotifyResourceListChanged
  | changed _ key resource =>
      NotifyResourceChange (create_uri (get_resource_loader resource) key)
  end.

Definition prompt_dispatch (ev : Event Prompt) : Coroutine :=
  NotifyPromptListChanged.

Definition tool_dispatch (ev : Event Tool) : Coroutine :=
  NotifyToolListChanged.

End Server.

Arguments added {V} key value.
Arguments removed {V} key value.
Arguments changed {V} key value.

(** The server once [calls] were wrapped and tracked, one after the
    other. *)
Fixpoint scheduled (calls : list Coroutine) (ctx : option Session)
    (s : Server) : Server :=
  match calls with
  | [] => s
  | c :: rest => scheduled rest ctx (_create_task c ctx s).1
  end.

(** The server with one more record in its log. *)
Definition debug_logged (s : Server) : Server :=
  set_log (λ l, l ++ [mkLogRecord DEBUG "No active session for notification" None]) s.

Definition error_logged (msg : string) (e : Exn) (s : Server) : Server :=
  set_log (λ l, l ++ [mkLogRecord ERROR msg (Some e)]) s.

(** The [AttributeError] of reading [events] on the resource observer. *)
Definition events_missing : Exn :=
  mkExn AttributeErrorC "'ResourceObserver' object has no attribute 'events'".

(** A task is terminal once it completed, failed or was cancelled. *)
Definition terminal (s : Server) (task : nat) : Prop :=
  ∃ r, loop s !! task = Some (Done r).

(** A task is in flight while it is pending and tracked. *)
Definition in_flight (s : Server) (task : nat) : Prop :=
  (∃ t, loop s !! task = Some (Pending t)) ∧ task ∈ _tasks s.

Definition settled (s : Server) (task : nat) : Prop :=
  terminal s task ∨ in_flight s task.

(** The tracked set holds only tasks that have not completed. *)
Definition tracked_pending (s : Server) : Prop :=
  ∀ task, task ∈ _tasks s -> ∃ t, loop s !! task = Some (Pending t).

(** [s'] has the tasks of [s], as they were, and maybe new ones. *)
Definition extends (s s' : Server) : Prop :=
  (∃ new, loop s' = loop s ++ new) ∧ _tasks s ⊆ _tasks s'.

End Dispatcher.

(** ** Sample requests and servers *)

Module Samples.
Import Gateway.

Definition text_resource (content : string) : Json :=
  JDict [("type", JStr "text"); ("content", JStr content)].

(** A raw payload whose second resource has an unknown discriminator. *)
Definition mixed_config : list (string * Json) :=
  [ ("resources",
     JDict [ ("a", text_resource "hello");
             ("b", JDict [("type", JStr "bogus")]) ]) ].

Definition resource_config : list (string * Json) :=
  [ ("resources", JDict [ ("a", text_resource "hello") ]) ].

Definition tool_config : list (string * Json) :=
  [ ("tools", JDict [ ("t", JDict [("import_path", JStr "myapp.tools.analyze")]) ]) ].

(** A typed batch of three resources, on a registry that holds ["b"]
    already and is asked not to replace. *)
Definition batch : @ConfigUpdateRequest (list (string * Json)) (list (string * Json)) :=
  {| resources := Some [ ("a", [("type", JStr "text"); ("content", JStr "1")]);
                         ("b", [("type", JStr "text"); ("content", JStr "2")]);
                         ("c", [("type", JStr "text"); ("content", JStr "3")]) ];
     tools := None;
     replace_existing := false |}.

Definition holding_b : Reference.Runtime :=
  Reference.mkRuntime {["b" := [("type", JStr "text"); ("content", JStr "0")]]} ∅ ∅.

Definition holding_r1 : Reference.Runtime :=
  Reference.mkRuntime {["r1" := [("type", JStr "text"); ("content", JStr "hello")]]}
                      {["r1" := [("import_path", JStr "myapp.tools.analyze")]]} ∅.

(** An [update] frame with one resource and a correlation id. *)
Definition update_payload : list (string * Json) :=
  [ ("resources", JDict [ ("r1", text_resource "hello") ]) ].

Definition update_frame : Json :=
  JDict [ ("type", JStr "update");
          ("data", JDict update_payload);
          ("request_id", JStr "42") ].

Definition update_request
  : @ConfigUpdateRequest (list (string * Json)) (list (string * Json)) :=
  {| resources := Some [ ("r1", [("type", JStr "text"); ("content", JStr "hello")]) ];
     tools := None;
     replace_existing := true |}.

Definition fresh_connection
  : @Connection Reference.Runtime (list (string * Json)) (list (string * Json)) :=
  {| conn_runtime := Reference.empty; conn_message := None; conn_sent := [] |}.

Import Dispatcher.

(** A transport that delivers everything. *)
Definition delivers (sent : list (Session * Notification)) (session : Session)
    (n : Notification) : option Exn := None.

Definition any_url (uri : string) : Exn + string := inr uri.

Definition idle : Server :=
  {| _subscriptions := ∅; _tasks := ∅; loop := []; log := []; outbox := [];
     injection_server := false |}.

(** A server with a subscription to another resource. *)
Definition subscribed_elsewhere : Server :=
  {| _subscriptions := {["text://other" := {[7]}]}; _tasks := ∅; loop := [];
     log := []; outbox := []; injection_server := false |}.

(** A server with two notification sends in flight. *)
Definition two_in_flight : Server :=
  {| _subscriptions := ∅;
     _tasks := {[0; 1]};
     loop := [ Pending (mkTask (Send 7 PromptListChanged) (Some 7) false);
               Pending (mkTask NotifyResourceListChanged (Some 7) false) ];
     log := []; outbox := []; injection_server := true |}.

(** A shutdown during which the first task gets its turn, and no
    collaborator raises. *)
Definition calm : Environment :=
  {| injection_server_stop := mkAwait [Run 0] None;
     transport_shutdown := mkAwait [] None;
     gather := mkAwait [Spawn NotifyToolListChanged None] None;
     remove_observer := λ _, None;
     runtime_shutdown := mkAwait [] None |}.

End Samples.

(** ** The listing routes: [injection/routes.py] *)

Module Inventory.
Import Gateway.

(** The literal [inject_config] matches each resource class on. *)
Definition class_literal (cls : ResourceClass) : string :=
  match cls with
  | PathResource => "path"
  | TextResource => "text"
  | CLIResource => "cli"
  | SourceResource => "source"
  | CallableResource => "callable"
  | ImageResource => "image"
  end.

(** A dict comprehension [{name: f(x) for name, x in items}]: the values
    are computed in iteration order and the first exception ends it. *)
Fixpoint comprehension {A B} (f : string -> A -> Exn + B)
    (items : list (string * A)) : Exn + list (string * B) :=
  match items with
  | [] => inr []
  | (name, x) :: rest =>
      match f name x with
      | inl e => inl e
      | inr v =>
          match comprehension f rest with
          | inl e => inl e
          | inr vs => inr ((name, v) :: vs)
          end
      end
  end.

Section Listing.

Context {Runtime Resource ToolConfig Tool Schema : Type}.
Context `{!@Collaborators Runtime Resource ToolConfig}.

(** A connection once [message] is bound, and once an envelope was
    sent on it. *)
Definition bound (message : @WebSocketMessage Resource ToolConfig)
    (c : @Connection Runtime Resource ToolConfig)
  : @Connection Runtime Resource ToolConfig :=
  {| conn_runtime := conn_runtime c;
     conn_message := Some message;
     conn_sent := conn_sent c |}.

Definition replied (response : WebSocketResponse)
    (c : @Connection Runtime Resource ToolConfig)
  : @Connection Runtime Resource ToolConfig :=
  {| conn_runtime := conn_runtime c;
     conn_message := conn_message c;
     conn_sent := conn_sent c ++ [response] |}.

(** The envelope of the [except] clause. *)
Definition failure_envelope (request_id : option string) : WebSocketResponse :=
  {| resp_type := ws_error;
     resp_data := DataDict [];
     resp_request_id := request_id;
     resp_message := Some "Operation failed" |}.

(** What the listing routes read from the runtime. *)
Class Catalogue := {
  (** [runtime._resource_registry[name]] *)
  resource_registry_getitem : string -> Runtime -> Exn + Resource;
  (** [runtime.tools.items()] *)
  runtime_tools : Runtime -> list (string * Tool);
  (** [tool.get_schema()] *)
  get_schema : Tool -> Exn + Schema
}.

Context `{!Catalogue}.

(** [list_resources]: no exception is handled here. *)
Definition list_resources (rt : Runtime) : Outcome (list (string * Resource)) :=
  match comprehension (λ name _, resource_registry_getitem name rt)
                      (map (λ name, (name, tt)) (list_resource_names rt)) with
  | inr listing => Returned listing
  | inl e => Unhandled e
  end.

Definition list_tools (rt : Runtime) : Outcome (list (string * Schema)) :=
  match comprehension (λ _ tool, get_schema tool) (runtime_tools rt) with
  | inr listing => Returned listing
  | inl e =>
      HTTPError {| status_code := 500;
                   detail := "Failed to get tool schemas: " +:+ exn_str e |}
  end.

(** What registering promises the listing: a registered name is listed. *)
Class MappingInsertion := {
  register_resource_listed name resource replace rt rt' :
    register_resource name resource replace rt = inr rt' ->
    name ∈ list_resource_names rt';
  register_tool_listed name tool replace rt rt' :
    tool_registry_register name tool replace rt = inr rt' ->
    name ∈ list_tool_names rt'
}.

End Listing.

(** The dict-backed runtime as a catalogue: a tool is its payload, and
    its schema cannot be built without an import path. *)
Definition reference_getitem (name : string) (rt : Reference.Runtime)
  : Exn + list (string * Json) :=
  match Reference._resource_registry rt !! name with
  | Some resource => inr resource
  | None => inl (mkExn KeyErrorC ("'" +:+ name +:+ "'"))
  end.

Definition reference_schema (tool : list (string * Json))
  : Exn + list (string * Json) :=
  if Reference.has_string "import_path" tool
  then inr [("name", dict_get "import_path" tool)]
  else inl (mkExn OtherException "no import path").

Global Instance reference_catalogue
  : @Catalogue Reference.Runtime (list (string * Json)) (list (string * Json))
               (list (string * Json)) := {|
  resource_registry_getitem := reference_getitem;
  runtime_tools rt := map_to_list (Reference._tool_registry rt);
  get_schema := reference_schema
|}.

(** More sample frames and payloads. *)
Definition query_frame : Json :=
  JDict [ ("type", JStr "query"); ("data", JDict []); ("request_id", JStr "7") ].

Definition error_frame : Json :=
  JDict [ ("type", JStr "error"); ("data", JDict [("reason", JStr "oops")]) ].

(** An [update] frame whose second resource has an unknown discriminator. *)
Definition rejected_frame : Json :=
  JDict [ ("type", JStr "update");
          ("data", JDict Samples.mixed_config);
          ("request_id", JStr "9") ].

Definition empty_config : list (string * Json) :=
  [ ("resources", JDict []); ("tools", JNull) ].

Definition list_config : list (string * Json) :=
  [ ("resources", JList [JStr "a"]) ].

Definition string_entry_config : list (string * Json) :=
  [ ("resources", JDict [ ("a", JStr "hello") ]) ].

(** A runtime one of whose tools has no import path. *)
Definition with_broken_tool : Reference.Runtime :=
  Reference.mkRuntime ∅ {["bad" := [("description", JStr "x")]]} ∅.

End Inventory.

(** ** The server's life cycle: [server.py], [injection/server.py] *)

Module Lifecycle.
Import Dispatcher.

(** The transports [_create_transport] chooses from. *)
Inductive Transport :=
| StdioServer
| SSEServer (options : list (string * Json)).

Definition is_StdioServer (t : Transport) : bool :=
  match t with StdioServer => true | SSEServer _ => false end.

(** An [LLMLingServer] once constructed: the dispatcher's state and the
    transport. *)
Record LLMLingServer := mkLLMLingServer {
  server : Server;
  transport : Transport
}.

(** [mcp.Implementation] and the [client_params] of a session. *)
Record Implementation := mkImplementation {
  impl_name : string;
  impl_version : string
}.

Record InitializeRequestParams := mkInitializeRequestParams {
  clientInfo : Implementation
}.

(** A [uvicorn.Server], as far as the injection server touches it. *)
Record Uvicorn := mkUvicorn { should_exit : bool }.

(** [ConfigInjectionServer] of [injection/server.py]. *)
Record ConfigInjectionServer := mkConfigInjectionServer {
  host : string;
  port : Z;
  _server : option Uvicorn
}.

Definition set_server (u : option Uvicorn) (s : ConfigInjectionServer)
  : ConfigInjectionServer :=
  mkConfigInjectionServer (host s) (port s) u.

(** [ConfigInjectionServer.start]: it builds the [uvicorn] server and
    returns; [transport] is [self.llm_server.transport]. *)
Definition injection_start (transport : Transport)
  : Eff ConfigInjectionServer unit :=
  if is_StdioServer transport
  then modify (set_server (Some (mkUvicorn false)))
  else raise (mkExn RuntimeErrorC "Config injection requires stdio transport").

(** [ConfigInjectionServer.stop]; [shutdown] is what awaiting
    [self._server.shutdown()] raises, if anything. *)
Definition injection_stop (shutdown : option Exn)
  : Eff ConfigInjectionServer unit :=
  λ s, match _server s with
       | Some _ =>
           let stopping := set_server (Some (mkUvicorn true)) s in
           match shutdown with
           | Some e => (stopping, inl e)
           | None => (set_server None stopping, inr tt)
           end
       | None => (s, inr tt)
       end.

Section Construction.

(** What [SSEServer(self.server, **options)] raises on these options, if
    anything; the transports are not part of the sources at hand. *)
Variable SSEServer_init : list (string * Json) -> option Exn.

(** What [register_handlers(self)] raises, if anything; [handlers.py] is
    not part of the sources at hand. *)
Variable register_handlers : option Exn.

(** What the constructor of an observer raises, if anything, when it
    connects its handlers to the signals of the registry. *)
Variable Observer_init : ObserverKind -> option Exn.

(** What [runtime.add_observer] raises, if anything. *)
Variable add_observer : ObserverKind -> option Exn.

(** [session.client_params] *)
Variable client_params : Session -> option InitializeRequestParams.

Definition _create_transport (transport_type : string)
    (options : list (string * Json)) : Exn + Transport :=
  if String.eqb transport_type "stdio" then inr StdioServer
  else if String.eqb transport_type "sse" then
    match SSEServer_init options with
    | Some e => inl e
    | None => inr (SSEServer options)
    end
  else inl (mkExn ValueErrorC ("Unknown transport type: " +:+ transport_type)).

(** [self.runtime.add_observer(self.<kind>_observer.events, ...)]: the
    argument is evaluated first. *)
Definition call_add_observer (k : ObserverKind) : Exn + unit :=
  match observer_getattr k "events" with
  | inl e => inl e
  | inr _ =>
      match add_observer k with
      | Some e => inl e
      | None => inr tt
      end
  end.

(** [_setup_observers]: the three observers are constructed, then
    registered with the runtime. *)
Definition _setup_observers : Exn + unit :=
  match Observer_init resource_observer with
  | Some e => inl e
  | None =>
  match Observer_init prompt_observer with
  | Some e => inl e
  | None =>
  match Observer_init tool_observer with
  | Some e => inl e
  | None =>
  match call_add_observer resource_observer with
  | inl e => inl e
  | inr _ =>
  match call_add_observer prompt_observer with
  | inl e => inl e
  | inr _ => call_add_observer tool_observer
  end end end end end.

(** [__init__]: the attributes are set, the transport is created, then
    the handlers and the observers are set up; [Server(name)] and the
    constructor of the injection server are taken to return. *)
Definition init (transport_type : string)
    (transport_options : option (list (string * Json)))
    (enable_injection : bool) : Exn + LLMLingServer :=
  match _create_transport transport_type (default [] transport_options) with
  | inl e => inl e
  | inr t =>
      let self :=
        {| server :=
             {| _subscriptions := ∅; _tasks := ∅; loop := []; log := [];
                outbox := [];
                injection_server := enable_injection && is_StdioServer t |};
           transport := t |} in
      match register_handlers with
      | Some e => inl e
      | None =>
          match _setup_observers with
          | inl e => inl e
          | inr _ => inr self
          end
      end
  end.

(** [get_client_info] *)
Definition get_client_info (ctx : option Session) : Eff Server Implementation :=
  params ←
    try_except
      (session ← current_session ctx;
       match client_params session with
       | Some params => mret params
       | None =>
           raise (mkExn RuntimeErrorC
                        "No client initialization parameters available")
       end)
      [ (Exception,
         λ _, raise (mkExn RuntimeErrorC "Failed to get client information")) ];
  mret (clientInfo params).

(** The [client_info] property *)
Definition client_info (ctx : option Session)
  : Eff Server (option Implementation) :=
  session ← current_session ctx;
  match client_params session with
  | Some params => mret (Some (clientInfo params))
  | None => mret None
  end.

End Construction.

(** *** Driving the dispatcher *)

Section Driving.

Variable delivery :
  list (Session * Notification) -> Session -> Notification -> option Exn.
Variable AnyUrl : string -> Exn + string.

(** What can happen to a server between its construction and its end:
    an observer (or anyone) schedules a dispatcher call, a caller awaits
    one, progress is notified, the loop does something, the server is
    shut down. *)
Inductive Action :=
| Schedule (c : Coroutine) (ctx : option Session)
| Call (c : Coroutine) (ctx : option Session)
| Progress (token : string) (progress : float) (total : option float)
           (description : option string) (ctx : option Session)
| Tick (ev : LoopEvent)
| Shutdown (env : Environment).

Definition act (s : Server) (a : Action) : Server :=
  match a with
  | Schedule c ctx => (_create_task c ctx s).1
  | Call c ctx => (run_coroutine delivery AnyUrl c ctx s).1
  | Progress token progress total description ctx =>
      (notify_progress token progress total description ctx s).1
  | Tick ev => loop_event delivery AnyUrl s ev
  | Shutdown env => (shutdown delivery AnyUrl env s).1
  end.

End Driving.

(** [s'] is [s] with some calls scheduled after its tasks, and maybe a
    longer log and outbox. *)
Definition appended (s s' : Server) : Prop :=
  ∃ calls ctx,
    loop s' = loop s ++ map (λ c, Pending (mkTask c ctx false)) calls
    ∧ _tasks s' = _tasks s ∪ list_to_set (seq (length (loop s)) (length calls)).

Definition is_Run (ev : LoopEvent) : bool :=
  match ev with Run _ => true | Spawn _ _ => false end.

(** No task gets its turn while [a] is awaited. *)
Definition no_turn (a : Await) : Prop :=
  Forall (λ ev, is_Run ev = false) (meanwhile a).

(** A step that keeps the tracked set to pending tasks and neither
    sends nor logs. *)
Definition calm_step {A} (c : Eff Server A) : Prop :=
  ∀ s, tracked_pending s ->
       tracked_pending (c s).1
       ∧ outbox (c s).1 = outbox s
       ∧ log (c s).1 = log s.

(** A shutdown during which the loop is idle and no collaborator
    raises. *)
Definition still : Environment :=
  {| injection_server_stop := mkAwait [] None;
     transport_shutdown := mkAwait [] None;
     gather := mkAwait [] None;
     remove_observer := λ _, None;
     runtime_shutdown := mkAwait [] None |}.

(** A shutdown whose transport fails to stop. *)
Definition transport_fails : Environment :=
  {| injection_server_stop := mkAwait [] None;
     transport_shutdown := mkAwait [] (Some (mkExn OtherException "transport"));
     gather := mkAwait [] None;
     remove_observer := λ _, None;
     runtime_shutdown := mkAwait [] None |}.

(** Sessions 7 and 8: the first has introduced itself. *)
Definition sample_params (session : Session) : option InitializeRequestParams :=
  if Nat.eqb session 7
  then Some (mkInitializeRequestParams (mkImplementation "test-client" "1.0"))
  else None.

End Lifecycle.

(** * Properties of the gateway *)

Module GatewayFacts.
Import Gateway.

Section Facts.

Context {Runtime Resource ToolConfig : Type}.
Context `{!@Collaborators Runtime Resource ToolConfig}.

Abbreviation Request := (@ConfigUpdateRequest Resource ToolConfig).

(** *** The batch loops *)

Lemma bulk_resource_step_apply replace rt acc sm item :
  bulk_resource_step replace (rt, acc, sm) item =
    let '(rt', r) := apply_resource replace item rt in
    (rt', acc ++ [r], incr (status_key r) sm).
Proof.
  destruct item as [n r]. unfold bulk_resource_step, apply_resource. simpl.
  destruct (register_resource n r replace rt); reflexivity.
Qed.

Lemma bulk_tool_step_apply replace rt acc sm item :
  bulk_tool_step replace (rt, acc, sm) item =
    let '(rt', r) := apply_tool replace item rt in
    (rt', acc ++ [r], incr (status_key r) sm).
Proof.
  destruct item as [n t]. unfold bulk_tool_step, apply_tool. simpl.
  destruct (tool_registry_register n t replace rt); reflexivity.
Qed.

(** A loop whose step applies one item and records it is
    [apply_each]. *)
Lemma fold_apply_each {A} (step : BulkState -> A -> BulkState)
    (apply : A -> Runtime -> Runtime * ComponentResponse) :
  (∀ rt acc sm item,
     step (rt, acc, sm) item =
       let '(rt', r) := apply item rt in
       (rt', acc ++ [r], incr (status_key r) sm)) ->
  ∀ items rt acc sm,
    fold_left step items (rt, acc, sm) =
      let '(rt', rs) := apply_each apply items rt in
      (rt', acc ++ rs, tally rs sm).
Proof.
  intros Hstep items. induction items as [|item rest IH]; intros rt acc sm.
  - simpl. by rewrite app_nil_r.
  - simpl. rewrite Hstep.
    destruct (apply item rt) as [rt1 r].
    rewrite IH.
    destruct (apply_each apply rest rt1) as [rt2 rs].
    by rewrite <- app_assoc.
Qed.

Lemma apply_each_length {A} (apply : A -> Runtime -> Runtime * ComponentResponse)
    items rt :
  length (apply_each apply items rt).2 = length items.
Proof.
  revert rt. induction items as [|item rest IH]; intros rt; simpl; [done|].
  destruct (apply item rt) as [rt1 r].
  specialize (IH rt1). destruct (apply_each apply rest rt1). simpl in *. lia.
Qed.

Lemma apply_each_app {A} (apply : A -> Runtime -> Runtime * ComponentResponse)
    xs ys rt :
  apply_each apply (xs ++ ys) rt =
    let '(rt1, rs) := apply_each apply xs rt in
    let '(rt2, ss) := apply_each apply ys rt1 in
    (rt2, rs ++ ss).
Proof.
  revert rt. induction xs as [|x xs IH]; intros rt; simpl.
  - by destruct (apply_each apply ys rt).
  - destruct (apply x rt) as [rt1 r]. rewrite IH.
    destruct (apply_each apply xs rt1) as [rt2 rs].
    by destruct (apply_each apply ys rt2).
Qed.

(** *** The summary counts *)

Lemma status_key_cases r :
  (status r = St_success ∧ status_key r = "success")
  ∨ (status r = St_error ∧ status_key r = "error").
Proof. unfold status_key. destruct (status r); auto. Qed.

Lemma tally_success rs : ∀ sm n,
  sm !! "success" = Some n ->
  tally rs sm !! "success" =
    Some (n + length (filter (λ r, status r = St_success) rs)).
Proof.
  induction rs as [|r rs IH]; intros sm n Hn; simpl.
  - rewrite Hn. f_equal. lia.
  - destruct (status_key_cases r) as [[Hs Hk]|[Hs Hk]]; rewrite Hk.
    + rewrite (IH _ (S n)).
      * rewrite filter_cons_True by done. simpl. f_equal. lia.
      * unfold incr. by rewrite lookup_alter_eq, Hn.
    + rewrite (IH _ n).
      * rewrite filter_cons_False by (rewrite Hs; done). done.
      * unfold incr. by rewrite lookup_alter_ne.
Qed.

Lemma tally_error rs : ∀ sm n,
  sm !! "error" = Some n ->
  tally rs sm !! "error" =
    Some (n + length (filter (λ r, status r = St_error) rs)).
Proof.
  induction rs as [|r rs IH]; intros sm n Hn; simpl.
  - rewrite Hn. f_equal. lia.
  - destruct (status_key_cases r) as [[Hs Hk]|[Hs Hk]]; rewrite Hk.
    + rewrite (IH _ n).
      * rewrite filter_cons_False by (rewrite Hs; done). done.
      * unfold incr. by rewrite lookup_alter_ne.
    + rewrite (IH _ (S n)).
      * rewrite filter_cons_True by done. simpl. f_equal. lia.
      * unfold incr. by rewrite lookup_alter_eq, Hn.
Qed.

Lemma tally_app rs ss sm : tally (rs ++ ss) sm = tally ss (tally rs sm).
Proof. revert sm. induction rs as [|r rs IH]; intros sm; simpl; auto. Qed.

(** [bulk_update] is the item-by-item reading of its request. *)
Lemma bulk_update_apply_each (request : Request) rt :
  bulk_update request rt =
    let flag := replace_existing request in
    let '(rt1, rr) :=
      apply_each (apply_resource flag) (items_of (resources request)) rt in
    let '(rt2, tr) :=
      apply_each (apply_tool flag) (items_of (tools request)) rt1 in
    (rt2, {| results := rr ++ tr;
             summary := tally (rr ++ tr) {["success" := 0; "error" := 0]} |}).
Proof.
  unfold bulk_update. cbv zeta.
  rewrite (fold_apply_each _ _ (bulk_resource_step_apply _)).
  destruct (apply_each (apply_resource _) _ rt) as [rt1 rr].
  rewrite (fold_apply_each _ _ (bulk_tool_step_apply _)).
  destruct (apply_each (apply_tool _) _ rt1) as [rt2 tr].
  simpl. by rewrite tally_app.
Qed.

Lemma apply_resource_status replace item rt :
  status (apply_resource replace item rt).2 =
    if returned (register_resource item.1 item.2 replace rt)
    then St_success else St_error.
Proof.
  unfold apply_resource. by destruct (register_resource _ _ _ _).
Qed.

Lemma apply_each_accepted replace items : ∀ rt,
  map (λ r, bool_decide (status r = St_success))
      (apply_each (apply_resource replace) items rt).2
  = accepted replace items rt.
Proof.
  induction items as [|[n r] rest IH]; intros rt; simpl; [done|].
  unfold apply_resource at 1. simpl.
  destruct (register_resource n r replace rt) as [e|rt1].
  - specialize (IH rt).
    destruct (apply_each _ rest rt). simpl in *. by rewrite IH.
  - specialize (IH rt1).
    destruct (apply_each _ rest rt1). simpl in *. by rewrite IH.
Qed.

Lemma count_success_map (rs : list ComponentResponse) :
  length (filter (λ r, status r = St_success) rs)
  = length (filter (λ b : bool, b = true)
                   (map (λ r, bool_decide (status r = St_success)) rs)).
Proof.
  induction rs as [|r rs IH]; simpl; [done|].
  destruct (decide (status r = St_success)) as [Hs|Hs].
  - rewrite filter_cons_True by done.
    rewrite filter_cons_True by (by rewrite bool_decide_eq_true). simpl. lia.
  - rewrite filter_cons_False by done.
    rewrite filter_cons_False by (by rewrite bool_decide_eq_true). done.
Qed.

Lemma count_success_error (rs : list ComponentResponse) :
  length (filter (λ r, status r = St_success) rs)
  + length (filter (λ r, status r = St_error) rs) = length rs.
Proof.
  induction rs as [|r rs IH]; simpl; [done|].
  destruct (status r) eqn:Hs.
  - rewrite filter_cons_True by done.
    rewrite filter_cons_False by (rewrite Hs; done). simpl. lia.
  - rewrite filter_cons_False by (rewrite Hs; done).
    rewrite filter_cons_True by done. simpl. lia.
Qed.

Lemma apply_resource_name replace : ∀ item rt,
  let r := (apply_resource replace item rt).2 in
  name r = item.1 ∧ component_type r = CT_resource.
Proof.
  intros item rt. unfold apply_resource.
  by destruct (register_resource _ _ _ _).
Qed.

Lemma apply_tool_name replace : ∀ item rt,
  let r := (apply_tool replace item rt).2 in
  name r = item.1 ∧ component_type r = CT_tool.
Proof.
  intros item rt. unfold apply_tool.
  by destruct (tool_registry_register _ _ _ _).
Qed.

Lemma apply_each_names {A} (apply : A -> Runtime -> Runtime * ComponentResponse)
    (key : A -> string) (ct : ComponentType) :
  (∀ item rt, name (apply item rt).2 = key item
              ∧ component_type (apply item rt).2 = ct) ->
  ∀ items rt,
    map (λ r, (component_type r, name r)) (apply_each apply items rt).2
    = map (λ item, (ct, key item)) items.
Proof.
  intros Happly items. induction items as [|item rest IH]; intros rt; simpl; [done|].
  destruct (Happly item rt) as [Hn Hc].
  destruct (apply item rt) as [rt1 r]. simpl in *.
  specialize (IH rt1). destruct (apply_each apply rest rt1). simpl in *.
  by rewrite Hn, Hc, IH.
Qed.

(** C1. [bulk_update] attempts every item of the request on its own,
    resources before tools and each in request order, so that a failing
    item neither stops nor undoes the others; the report holds exactly one
    entry per item, naming it, and its summary counts are the numbers of
    success and of error entries.  In particular three resource entries of
    which the registry accepts two give [success = 2], [error = 1] and
    three entries, wherever the rejected entry stands. *)
Theorem bulk_update_mutation_report (request : Request) (rt : Runtime) :
  let flag := replace_existing request in
  let rs := items_of (resources request) in
  let ts := items_of (tools request) in
  let after_resources := apply_each (apply_resource flag) rs rt in
  let after_tools := apply_each (apply_tool flag) ts after_resources.1 in
  let report := (bulk_update request rt).2 in
  (bulk_update request rt).1 = after_tools.1
  ∧ results report = after_resources.2 ++ after_tools.2
  ∧ length (results report) = length rs + length ts
  ∧ map (λ r, (component_type r, name r)) (results report)
    = map (λ item, (CT_resource, item.1)) rs ++ map (λ item, (CT_tool, item.1)) ts
  ∧ summary report !! "success"
    = Some (length (filter (λ r, status r = St_success) (results report)))
  ∧ summary report !! "error"
    = Some (length (filter (λ r, status r = St_error) (results report)))
  ∧ (ts = [] -> length rs = 3 ->
     length (filter (λ b : bool, b = true) (accepted flag rs rt)) = 2 ->
     length (results report) = 3
     ∧ summary report !! "success" = Some 2
     ∧ summary report !! "error" = Some 1).
Proof.
  intros flag rs ts after_resources after_tools report.
  assert (Hrun : bulk_update request rt
                 = (after_tools.1,
                    {| results := after_resources.2 ++ after_tools.2;
                       summary := tally (after_resources.2 ++ after_tools.2)
                                        {["success" := 0; "error" := 0]} |})).
  { rewrite bulk_update_apply_each. cbv zeta.
    subst after_tools after_resources rs ts flag.
    destruct (apply_each (apply_resource _) _ rt) as [rt1 rr]. simpl.
    by destruct (apply_each (apply_tool _) _ rt1) as [rt2 tr]. }
  assert (Hres : results report = after_resources.2 ++ after_tools.2).
  { subst report. by rewrite Hrun. }
  assert (Hlen : length (results report) = length rs + length ts).
  { rewrite Hres, length_app.
    subst after_tools after_resources. by rewrite !apply_each_length. }
  assert (Hsucc : summary report !! "success"
                  = Some (length (filter (λ r, status r = St_success)
                                         (results report)))).
  { rewrite Hres. subst report. rewrite Hrun. simpl.
    by rewrite (tally_success _ _ 0). }
  assert (Herr : summary report !! "error"
                 = Some (length (filter (λ r, status r = St_error)
                                        (results report)))).
  { rewrite Hres. subst report. rewrite Hrun. simpl.
    by rewrite (tally_error _ _ 0). }
  split_and!; try done.
  - by rewrite Hrun.
  - rewrite Hres, map_app. f_equal.
    + apply (apply_each_names _ fst CT_resource), apply_resource_name.
    + apply (apply_each_names _ fst CT_tool), apply_tool_name.
  - intros Hts Hthree Htwo.
    assert (Hall : results report = after_resources.2).
    { rewrite Hres. subst after_tools. rewrite Hts. simpl. apply app_nil_r. }
    assert (Hcount : length (filter (λ r, status r = St_success) (results report)) = 2).
    { rewrite Hall, count_success_map. subst after_resources.
      by rewrite apply_each_accepted. }
    pose proof (count_success_error (results report)) as Hsum.
    rewrite Hsucc, Herr, Hcount. rewrite Hcount in Hsum.
    rewrite Hlen, Hts, Hthree in *. simpl in *.
    split_and!; [done|done|]. f_equal. lia.
Qed.

(** *** [inject_config] *)

Lemma bind_run {S A B} (c : Eff S A) (k : A -> Eff S B) s :
  (c ≫= k) s = match c s with
               | (s', inr a) => k a s'
               | (s', inl e) => (s', inl e)
               end.
Proof. reflexivity. Qed.

Lemma bind_returns {S A B} (c : Eff S A) (k : A -> Eff S B) s s' b :
  (c ≫= k) s = (s', inr b) ->
  ∃ s1 a, c s = (s1, inr a) ∧ k a s1 = (s', inr b).
Proof.
  rewrite bind_run. destruct (c s) as [s1 [e|a]]; [discriminate|]. eauto.
Qed.

Lemma for_each_app_raise {S A} (body : A -> Eff S unit) pre item post s s1 e :
  for_each body pre s = (s1, inr tt) ->
  (body item s1).2 = inl e ->
  for_each body (pre ++ item :: post) s = ((body item s1).1, inl e).
Proof.
  revert s. induction pre as [|x pre IH]; intros s Hpre Hitem; simpl in *.
  - injection Hpre as ->. rewrite bind_run.
    destruct (body item s1) as [s2 [e'|[]]]; simpl in *; congruence.
  - rewrite bind_run in *.
    destruct (body x s) as [s' [e'|[]]]; [congruence|]. by apply IH.
Qed.

Lemma inject_resource_raise_state item rt rt' e :
  inject_resource item rt = (rt', inl e) -> rt' = rt.
Proof.
  destruct item as [n r]. unfold inject_resource.
  rewrite bind_run. unfold lift at 1.
  destruct (py_get r "type") as [e0|t]; [congruence|].
  rewrite bind_run. unfold lift.
  destruct (match match_resource_type t with
            | Some cls => model_validate cls r
            | None => _
            end) as [e1|v]; [congruence|].
  unfold call. destruct (register_resource n v true rt); congruence.
Qed.

Lemma inject_tool_raise_state item rt rt' e :
  inject_tool item rt = (rt', inl e) -> rt' = rt.
Proof.
  destruct item as [n t]. unfold inject_tool.
  rewrite bind_run. unfold lift.
  destruct (ToolConfig_model_validate t) as [e0|v]; [congruence|].
  unfold call. destruct (tool_registry_register n v true rt); congruence.
Qed.

Lemma inject_section_items config key
    (body : string * Json -> Eff Runtime unit) items :
  dict_get key config = JDict items ->
  inject_section config key body = for_each body items.
Proof.
  intros Hget. unfold inject_section. rewrite Hget.
  destruct items as [|item rest]; reflexivity.
Qed.

Lemma inject_config_run config rt :
  inject_config config rt =
    match inject_section config "resources" inject_resource rt with
    | (rt1, inl e) => (rt1, HTTPError {| status_code := 400; detail := exn_str e |})
    | (rt1, inr _) =>
        match inject_section config "tools" inject_tool rt1 with
        | (rt2, inl e) =>
            (rt2, HTTPError {| status_code := 400; detail := exn_str e |})
        | (rt2, inr _) =>
            (rt2, Returned (SuccessResponse "Config injected successfully"
                                            CT_tool "yaml_injection"))
        end
    end.
Proof.
  unfold inject_config, inject_config_body. rewrite bind_run.
  destruct (inject_section config "resources" inject_resource rt) as [rt1 [e|[]]];
    [done|].
  rewrite bind_run.
  by destruct (inject_section config "tools" inject_tool rt1) as [rt2 [e|[]]].
Qed.

(** C7, as the code has it.  [inject_config] stops at the first entry
    that raises and answers 400 with that exception's text; no later
    entry is attempted, and the registry is left as the entries before the
    failing one made it: they stay registered.  The first part covers a
    failing resource entry, the second a failing tool entry (after every
    resource entry was registered); the third says 400 is the only
    failure. *)
Theorem inject_config_first_error (config : list (string * Json)) (rt : Runtime) :
  (∀ pre item post rt1 e,
     dict_get "resources" config = JDict (pre ++ item :: post) ->
     for_each inject_resource pre rt = (rt1, inr tt) ->
     (inject_resource item rt1).2 = inl e ->
     inject_config config rt
     = (rt1, HTTPError {| status_code := 400; detail := exn_str e |}))
  ∧ (∀ pre item post rt0 rt1 e,
       inject_section config "resources" inject_resource rt = (rt0, inr tt) ->
       dict_get "tools" config = JDict (pre ++ item :: post) ->
       for_each inject_tool pre rt0 = (rt1, inr tt) ->
       (inject_tool item rt1).2 = inl e ->
       inject_config config rt
       = (rt1, HTTPError {| status_code := 400; detail := exn_str e |}))
  ∧ (∀ e, (inject_config config rt).2 ≠ Unhandled e)
  ∧ (∀ e, (inject_config config rt).2 = HTTPError e -> status_code e = 400).
Proof.
  split_and!.
  - intros pre item post rt1 e Hget Hpre Hitem.
    rewrite inject_config_run, (inject_section_items _ _ _ _ Hget).
    rewrite (for_each_app_raise _ _ _ _ _ _ _ Hpre Hitem).
    destruct (inject_resource item rt1) as [rt' r] eqn:Hrun. simpl in *. subst r.
    by rewrite (inject_resource_raise_state _ _ _ _ Hrun).
  - intros pre item post rt0 rt1 e Hres Hget Hpre Hitem.
    rewrite inject_config_run, Hres, (inject_section_items _ _ _ _ Hget).
    rewrite (for_each_app_raise _ _ _ _ _ _ _ Hpre Hitem).
    destruct (inject_tool item rt1) as [rt' r] eqn:Hrun. simpl in *. subst r.
    by rewrite (inject_tool_raise_state _ _ _ _ Hrun).
  - intros e. rewrite inject_config_run.
    destruct (inject_section config "resources" _ rt) as [rt1 [?|[]]]; [done|].
    by destruct (inject_section config "tools" _ rt1) as [rt2 [?|[]]].
  - intros e. rewrite inject_config_run.
    destruct (inject_section config "resources" _ rt) as [rt1 [?|[]]];
      [simpl; by intros [= <-]|].
    destruct (inject_section config "tools" _ rt1) as [rt2 [?|[]]];
      simpl; [by intros [= <-]|done].
Qed.

(** C10. Whatever the payload held, a successful [inject_config] answers
    with the fixed outcome: status success, [component_type = "tool"] and
    [name = "yaml_injection"]; the components injected are not named. *)
Theorem inject_config_fixed_outcome (config : list (string * Json))
    (rt rt' : Runtime) (response : ComponentResponse) :
  inject_config config rt = (rt', Returned response) ->
  component_type response = CT_tool
  ∧ name response = "yaml_injection"
  ∧ status response = St_success
  ∧ message response = "Config injected successfully".
Proof.
  rewrite inject_config_run.
  destruct (inject_section config "resources" _ rt) as [rt1 [?|[]]]; [done|].
  destruct (inject_section config "tools" _ rt1) as [rt2 [?|[]]]; [done|].
  by intros [= _ <-].
Qed.

(** *** Removal *)

(** C9. Removing a registered component twice in a row answers success,
    then not found (404); neither call lets an exception escape.  The
    same holds for a resource and for a tool. *)
Theorem remove_twice `{!MappingDeletion} (name : string) (rt : Runtime) :
  (name ∈ list_resource_names rt ->
   let first := remove_resource name rt in
   let second := remove_resource name first.1 in
   first.2 = Returned (SuccessResponse ("Resource " +:+ name +:+ " removed")
                                       CT_resource name)
   ∧ second.2 = HTTPError {| status_code := 404;
                             detail := "Resource " +:+ name +:+ " not found" |}
   ∧ second.1 = first.1)
  ∧ (name ∈ list_tool_names rt ->
     let first := remove_tool name rt in
     let second := remove_tool name first.1 in
     first.2 = Returned (SuccessResponse ("Tool " +:+ name +:+ " removed")
                                         CT_tool name)
     ∧ second.2 = HTTPError {| status_code := 404;
                               detail := "Tool " +:+ name +:+ " not found" |}
     ∧ second.1 = first.1).
Proof.
  split.
  - intros Hin. cbv zeta. unfold remove_resource.
    destruct (del_resource_present name rt Hin) as (rt1 & -> & Hgone). simpl.
    destruct (del_resource_missing name rt1 Hgone) as (e & -> & ->). done.
  - intros Hin. cbv zeta. unfold remove_tool.
    destruct (del_tool_present name rt Hin) as (rt1 & -> & Hgone). simpl.
    destruct (del_tool_missing name rt1 Hgone) as (e & -> & ->). done.
Qed.

(** *** The WebSocket handler *)

(** C8, as the code has it.  A frame that validates as an [update]
    message whose [data] mapping validates as a request makes the handler
    run [bulk_update] on the shared runtime and send, on the same
    connection, one success envelope that carries the message's
    [request_id] and, as [data], the per-item results of the report; the
    summary counts are not part of the envelope. *)
Theorem websocket_update_reply (raw_data : Json) (c : Connection)
    (message : WebSocketMessage) (d : list (string * Json)) (req : Request) :
  WebSocketMessage_model_validate raw_data = inr message ->
  msg_type message = Update ->
  msg_data message = inr d ->
  ConfigUpdateRequest_model_validate d = inr req ->
  let applied := bulk_update req (conn_runtime c) in
  handle_frame raw_data c
  = ({| conn_runtime := applied.1;
        conn_message := Some message;
        conn_sent :=
          conn_sent c ++
          [ {| resp_type := ws_success;
               resp_data := DataComponents (results applied.2);
               resp_request_id := msg_request_id message;
               resp_message := Some "Components updated successfully" |} ] |},
     inr tt).
Proof.
  intros Hmsg Htype Hdata Hreq applied.
  unfold handle_frame, try_except, handle_message, bind_message.
  rewrite !bind_run. unfold lift at 1. rewrite Hmsg.
  rewrite bind_run. unfold modify at 1, mret, Eff_ret, eff_ret.
  rewrite Htype, Hdata, bind_run. unfold lift. rewrite Hreq.
  rewrite bind_run. unfold await_bulk_update. simpl.
  subst applied. by destruct (bulk_update req (conn_runtime c)).
Qed.

End Facts.

(** *** The dict-backed runtime keeps the mapping contract *)

Lemma names_elem_of {V} (registry : gmap string V) name :
  name ∈ Reference.names registry ↔ is_Some (registry !! name).
Proof. unfold Reference.names. by rewrite elem_of_elements, elem_of_dom. Qed.

Lemma registry_delitem_present {V} (registry : gmap string V) name :
  name ∈ Reference.names registry ->
  ∃ registry', Reference.registry_delitem name registry = inr registry'
               ∧ name ∉ Reference.names registry'.
Proof.
  rewrite names_elem_of. intros [v Hv]. unfold Reference.registry_delitem.
  rewrite Hv. eexists; split; [done|].
  rewrite names_elem_of, lookup_delete_eq. by intros [? ?].
Qed.

Lemma registry_delitem_missing {V} (registry : gmap string V) name :
  name ∉ Reference.names registry ->
  ∃ e, Reference.registry_delitem name registry = inl e ∧ is_KeyError e = true.
Proof.
  rewrite names_elem_of. intros Hno. unfold Reference.registry_delitem.
  destruct (registry !! name) eqn:Hv; [by destruct Hno|]. by eexists.
Qed.

Global Instance reference_deletion : @MappingDeletion Reference.Runtime _ _ _.
Proof.
  split; intros name rt Hin; simpl in *; unfold Reference.on_resources, Reference.on_tools.
  - destruct (registry_delitem_present _ _ Hin) as (r' & -> & Hgone). by eexists.
  - destruct (registry_delitem_missing _ _ Hin) as (e & -> & He). by eexists.
  - destruct (registry_delitem_present _ _ Hin) as (r' & -> & Hgone). by eexists.
  - destruct (registry_delitem_missing _ _ Hin) as (e & -> & He). by eexists.
Defined.

(** *** The routes on the sample requests *)

(** C1 on a batch of three resources of which the registry refuses one. *)
Lemma bulk_update_mutation_report_witness :
  let report := (bulk_update Samples.batch Samples.holding_b).2 in
  length (results report) = 3
  ∧ summary report !! "success" = Some 2
  ∧ summary report !! "error" = Some 1.
Proof.
  pose proof (bulk_update_mutation_report Samples.batch Samples.holding_b) as H.
  cbv zeta in H. destruct H as (_ & _ & _ & _ & _ & _ & H).
  apply H; vm_compute; reflexivity.
Defined.

(** The rejected entry may stand anywhere in the batch. *)
Example bulk_update_rejected_first :
  let request :=
    {| resources := Some [ ("b", []); ("a", []); ("c", []) ];
       tools := None; replace_existing := false |} in
  let report := (bulk_update request Samples.holding_b).2 in
  map status (results report) = [St_error; St_success; St_success]
  ∧ summary report !! "success" = Some 2
  ∧ summary report !! "error" = Some 1.
Proof. vm_compute. by split_and!. Qed.

(** C7: the raw payload whose second resource is unknown is refused with
    400, and its first resource is registered all the same. *)
Lemma inject_config_first_error_witness :
  inject_config Samples.mixed_config Reference.empty
  = (Reference.mkRuntime
       {["a" := [("type", JStr "text"); ("content", JStr "hello")]]} ∅ ∅,
     HTTPError {| status_code := 400; detail := "Unknown resource type: bogus" |}).
Proof.
  apply (proj1 (inject_config_first_error Samples.mixed_config Reference.empty)
           [("a", Samples.text_resource "hello")]
           ("b", JDict [("type", JStr "bogus")]) []
           _ (mkExn ValueErrorC "Unknown resource type: bogus"));
    vm_compute; reflexivity.
Defined.

(** C7 as stated fails: the call fails, yet an item of the payload took
    effect on the registry. *)
Lemma inject_config_keeps_earlier_items :
  let after := inject_config Samples.mixed_config Reference.empty in
  after.2 = HTTPError {| status_code := 400;
                         detail := "Unknown resource type: bogus" |}
  ∧ list_resource_names Reference.empty = []
  ∧ list_resource_names after.1 = ["a"]
  ∧ after.1 ≠ Reference.empty.
Proof.
  split_and!; try (vm_compute; reflexivity).
  intros Heq. apply (f_equal list_resource_names) in Heq.
  vm_compute in Heq. discriminate.
Qed.

(** C10 on a payload with one resource. *)
Lemma inject_config_fixed_outcome_witness :
  let response := SuccessResponse "Config injected successfully"
                                  CT_tool "yaml_injection" in
  inject_config Samples.resource_config Reference.empty
  = (Reference.mkRuntime
       {["a" := [("type", JStr "text"); ("content", JStr "hello")]]} ∅ ∅,
     Returned response)
  ∧ component_type response = CT_tool
  ∧ name response = "yaml_injection"
  ∧ status response = St_success
  ∧ message response = "Config injected successfully".
Proof.
  assert (H : inject_config Samples.resource_config Reference.empty
              = (Reference.mkRuntime
                   {["a" := [("type", JStr "text"); ("content", JStr "hello")]]} ∅ ∅,
                 Returned (SuccessResponse "Config injected successfully"
                                           CT_tool "yaml_injection")))
    by (vm_compute; reflexivity).
  split; [exact H|].
  exact (inject_config_fixed_outcome _ _ _ _ H).
Defined.

(** The outcome is the same for tools only and for an empty payload. *)
Example inject_config_tools_only :
  (inject_config Samples.tool_config Reference.empty).2
  = Returned (SuccessResponse "Config injected successfully" CT_tool "yaml_injection")
  ∧ list_tool_names (inject_config Samples.tool_config Reference.empty).1 = ["t"].
Proof. vm_compute. by split. Qed.

Example inject_config_nothing :
  inject_config [] Reference.empty
  = (Reference.empty,
     Returned (SuccessResponse "Config injected successfully" CT_tool "yaml_injection")).
Proof. reflexivity. Qed.

(** C9 on a registry that holds ["r1"]. *)
Lemma remove_twice_witness :
  let first := remove_resource "r1" Samples.holding_r1 in
  let second := remove_resource "r1" first.1 in
  first.2 = Returned (SuccessResponse "Resource r1 removed" CT_resource "r1")
  ∧ second.2 = HTTPError {| status_code := 404; detail := "Resource r1 not found" |}
  ∧ second.1 = first.1.
Proof.
  apply (proj1 (remove_twice "r1" Samples.holding_r1)).
  apply names_elem_of. vm_compute. eauto.
Defined.

(** A name that was never registered is not found at the first call. *)
Example remove_unregistered :
  (remove_tool "ghost" Samples.holding_r1).2
  = HTTPError {| status_code := 404; detail := "Tool ghost not found" |}.
Proof. reflexivity. Qed.

(** C8 on the sample frame. *)
Lemma websocket_update_reply_witness :
  handle_frame Samples.update_frame Samples.fresh_connection
  = ({| conn_runtime := (bulk_update Samples.update_request Reference.empty).1;
        conn_message :=
          Some (mkWebSocketMessage Update (inr Samples.update_payload) (Some "42"));
        conn_sent :=
          [ {| resp_type := ws_success;
               resp_data :=
                 DataComponents
                   [ SuccessResponse "Resource r1 registered" CT_resource "r1" ];
               resp_request_id := Some "42";
               resp_message := Some "Components updated successfully" |} ] |},
     inr tt).
Proof.
  etransitivity.
  - apply (websocket_update_reply Samples.update_frame Samples.fresh_connection
             (mkWebSocketMessage Update (inr Samples.update_payload) (Some "42"))
             Samples.update_payload Samples.update_request);
      reflexivity.
  - vm_compute. reflexivity.
Defined.

(** C8 as stated fails: the envelope holds the per-item results, not the
    report with its summary. *)
Lemma websocket_reply_omits_summary :
  let conn := (websocket_endpoint [Samples.update_frame] Reference.empty).1 in
  let report := (bulk_update Samples.update_request Reference.empty).2 in
  map resp_data (conn_sent conn) = [DataComponents (results report)]
  ∧ summary report !! "success" = Some 1
  ∧ map resp_data (conn_sent conn) ≠ [DataDict (dump_report report)].
Proof.
  split_and!; try (vm_compute; reflexivity).
  vm_compute. discriminate.
Qed.

(** A frame that does not validate, as the first frame of a connection,
    finds [message] unbound in the [except] clause: the handler ends with
    that error and sends nothing. *)
Example websocket_first_frame_invalid :
  let run := websocket_endpoint [JStr "hello"; Samples.update_frame] Reference.empty in
  (exn_class <$> (match run.2 with inl e => Some e | inr _ => None end))
  = Some UnboundLocalErrorC
  ∧ conn_sent run.1 = [].
Proof. vm_compute. by split. Qed.

End GatewayFacts.

(** * Properties of the dispatcher *)

Module DispatcherFacts.
Import Dispatcher.

Lemma scheduled_app calls more ctx s :
  scheduled (calls ++ more) ctx s = scheduled more ctx (scheduled calls ctx s).
Proof. revert s. induction calls as [|c calls IH]; intros s; simpl; auto. Qed.

(** What scheduling changes: the new tasks stand after the old ones, in
    order, pending and tracked; nothing is sent or logged. *)
Lemma scheduled_state calls ctx : ∀ s,
  loop (scheduled calls ctx s)
  = loop s ++ map (λ c, Pending (mkTask c ctx false)) calls
  ∧ _tasks (scheduled calls ctx s)
    = _tasks s ∪ list_to_set (seq (length (loop s)) (length calls))
  ∧ outbox (scheduled calls ctx s) = outbox s
  ∧ log (scheduled calls ctx s) = log s
  ∧ _subscriptions (scheduled calls ctx s) = _subscriptions s.
Proof.
  induction calls as [|c calls IH]; intros s; simpl.
  - split_and!; try done; [by rewrite app_nil_r | set_solver].
  - destruct (IH (set_tasks (λ ts, {[length (loop s)]} ∪ ts)
                   (set_loop (λ l, l ++ [Pending (mkTask c ctx false)]) s)))
      as (Hl & Ht & Ho & Hg & Hs).
    rewrite Hl, Ht, Ho, Hg, Hs. simpl.
    split_and!; try done.
    + by rewrite <- app_assoc.
    + rewrite length_app. simpl.
      replace (length (loop s) + 1) with (S (length (loop s))) by lia.
      set_solver.
Qed.

Section Facts.

Variable delivery :
  list (Session * Notification) -> Session -> Notification -> option Exn.
Variable AnyUrl : string -> Exn + string.

(** *** Observers *)

Section Observers.

Context {Resource Loader Prompt Tool : Type}.
Variable get_resource_loader : Resource -> Loader.
Variable create_uri : Loader -> string -> string.

Lemma observer_run {V} (observer : option Session -> Event V -> Eff Server unit)
    (dispatch : Event V -> Coroutine) ctx :
  (∀ ev s, observer ctx ev s = ((_create_task (dispatch ev) ctx s).1, inr tt)) ->
  ∀ events s,
    for_each (observer ctx) events s
    = (scheduled (map dispatch events) ctx s, inr tt).
Proof.
  intros Hobs events. induction events as [|ev events IH]; intros s; [done|].
  simpl. rewrite GatewayFacts.bind_run, Hobs. apply IH.
Qed.

Lemma ResourceObserver_run ctx (ev : Event Resource) s :
  ResourceObserver get_resource_loader create_uri ctx ev s
  = ((_create_task (resource_dispatch get_resource_loader create_uri ev) ctx s).1,
     inr tt).
Proof. by destruct ev. Qed.

Lemma PromptObserver_run ctx (ev : Event Prompt) s :
  PromptObserver ctx ev s = ((_create_task (prompt_dispatch ev) ctx s).1, inr tt).
Proof. by destruct ev. Qed.

Lemma ToolObserver_run ctx (ev : Event Tool) s :
  ToolObserver ctx ev s = ((_create_task (tool_dispatch ev) ctx s).1, inr tt).
Proof. by destruct ev. Qed.

(** C5. For every sequence of N registry events, the observer of that
    registry makes exactly N dispatcher calls, in the order of the
    events: each is wrapped in a new tracked task, placed after the tasks
    before it, whose coroutine is the call the event stands for (list
    changed for the kind, or resource changed for the loader's URI).
    Nothing is sent or logged by the handlers themselves. *)
Theorem observers_dispatch_in_order (ctx : option Session) (s : Server)
    (resource_events : list (Event Resource))
    (prompt_events : list (Event Prompt)) (tool_events : list (Event Tool)) :
  let tasks_of {V} (dispatch : Event V -> Coroutine) (events : list (Event V)) :=
    map (λ ev, Pending (mkTask (dispatch ev) ctx false)) events in
  let ids {V} (events : list (Event V)) : gset nat :=
    list_to_set (seq (length (loop s)) (length events)) in
  let on_resources :=
    for_each (ResourceObserver get_resource_loader create_uri ctx)
             resource_events s in
  let on_prompts := for_each (PromptObserver ctx) prompt_events s in
  let on_tools := for_each (ToolObserver ctx) tool_events s in
  (on_resources.2 = inr tt
   ∧ loop on_resources.1
     = loop s ++ tasks_of (resource_dispatch get_resource_loader create_uri)
                          resource_events
   ∧ _tasks on_resources.1 = _tasks s ∪ ids resource_events
   ∧ outbox on_resources.1 = outbox s
   ∧ log on_resources.1 = log s)
  ∧ (on_prompts.2 = inr tt
     ∧ loop on_prompts.1 = loop s ++ tasks_of prompt_dispatch prompt_events
     ∧ _tasks on_prompts.1 = _tasks s ∪ ids prompt_events
     ∧ outbox on_prompts.1 = outbox s
     ∧ log on_prompts.1 = log s)
  ∧ (on_tools.2 = inr tt
     ∧ loop on_tools.1 = loop s ++ tasks_of tool_dispatch tool_events
     ∧ _tasks on_tools.1 = _tasks s ∪ ids tool_events
     ∧ outbox on_tools.1 = outbox s
     ∧ log on_tools.1 = log s).
Proof.
  cbv zeta. split_and!.
  all: try (rewrite (observer_run _ _ ctx (ResourceObserver_run ctx))).
  all: try (rewrite (observer_run _ _ ctx (PromptObserver_run ctx))).
  all: try (rewrite (observer_run _ _ ctx (ToolObserver_run ctx))).
  all: simpl; try done.
  all: match goal with
       | |- context [scheduled (map ?d ?evs) ?c ?s0] =>
           destruct (scheduled_state (map d evs) c s0) as (Hl & Ht & Ho & Hg & _)
       end.
  all: rewrite ?length_map, ?map_map in *; done.
Qed.

End Observers.

(** *** The notify operations *)






(** C4, as the code has it.  With a session attached,
    [notify_prompt_list_changed], [notify_tool_list_changed] and
    [notify_progress] wrap each send in a tracked task and return with
    nothing sent yet.  [notify_resource_list_changed] and
    [notify_resource_change] await the send themselves: when they return
    the notification is delivered and no task was created.  It is the
    resource observer that wraps these two operations, whole, in a
    tracked task, and returns with nothing sent. *)
Theorem notify_scheduling (session : Session) (s : Server) :
  notify_prompt_list_changed (Some session) s
  = (scheduled [Send session PromptListChanged] (Some session) s, inr tt)
  ∧ notify_tool_list_changed (Some session) s
    = (scheduled [Send session ToolListChanged] (Some session) s, inr tt)
  ∧ (∀ token progress total description,
       notify_progress token progress total description (Some session) s
       = (scheduled
            (Send session (ProgressNotification token progress total)
             :: match nonempty_description description with
                | Some d => [Send session (LogMessage "info" d)]
                | None => []
                end)
            (Some session) s,
          inr tt))
  ∧ (delivery (outbox s) session ResourceListChanged = None ->
     notify_resource_list_changed delivery (Some session) s
     = (set_outbox (λ o, o ++ [(session, ResourceListChanged)]) s, inr tt))
  ∧ (∀ uri url,
       uri ∈ dom (_subscriptions s) ->
       AnyUrl uri = inr url ->
       delivery (outbox s) session (ResourceUpdated url) = None ->
       notify_resource_change delivery AnyUrl uri (Some session) s
       = (set_outbox (λ o, o ++ [(session, ResourceUpdated url)]) s, inr tt))
  ∧ (∀ (Resource Loader : Type) (get_resource_loader : Resource -> Loader)
       (create_uri : Loader -> string -> string) ctx (ev : Event Resource),
       ResourceObserver get_resource_loader create_uri ctx ev s
       = (scheduled [resource_dispatch get_resource_loader create_uri ev] ctx s,
          inr tt)).
Proof.
  split_and!; try done; [| | |by intros ? ? ? ? ? []].
  - intros token progress total description.
    unfold notify_progress, try_except. rewrite GatewayFacts.bind_run. simpl.
    rewrite GatewayFacts.bind_run. simpl.
    by destruct (nonempty_description description).
  - intros Hok. unfold notify_resource_list_changed, try_except.
    rewrite GatewayFacts.bind_run. simpl. unfold await_send. by rewrite Hok.
  - intros uri url Hsub Hurl Hok.
    unfold notify_resource_change. rewrite GatewayFacts.bind_run.
    unfold gets at 1. rewrite bool_decide_eq_true_2 by done.
    unfold try_except. rewrite GatewayFacts.bind_run. simpl.
    rewrite GatewayFacts.bind_run. unfold lift. rewrite Hurl.
    unfold await_send. by rewrite Hok.
Qed.

(** C6. For a URI with no entry in the subscription table
    [notify_resource_change] does nothing at all: nothing is sent, logged
    or scheduled.  Whenever it hands a notification to a session, the URI
    has an entry. *)
Theorem notify_resource_change_unsubscribed (uri : string)
    (ctx : option Session) (s : Server) :
  (uri ∉ dom (_subscriptions s) ->
   notify_resource_change delivery AnyUrl uri ctx s = (s, inr tt))
  ∧ (outbox (notify_resource_change delivery AnyUrl uri ctx s).1 ≠ outbox s ->
     uri ∈ dom (_subscriptions s)).
Proof.
  assert (Hno : uri ∉ dom (_subscriptions s) ->
                notify_resource_change delivery AnyUrl uri ctx s = (s, inr tt)).
  { intros Hno. unfold notify_resource_change. rewrite GatewayFacts.bind_run.
    unfold gets. by rewrite bool_decide_eq_false_2. }
  split; [done|].
  intros Hsent. destruct (decide (uri ∈ dom (_subscriptions s))) as [|Hnot]; [done|].
  rewrite (Hno Hnot) in Hsent. by destruct Hsent.
Qed.

(** *** Tasks only ever move towards a result *)

Lemma extends_refl s : extends s s.
Proof. split; [exists []; by rewrite app_nil_r | done]. Qed.

Lemma extends_trans s1 s2 s3 : extends s1 s2 -> extends s2 s3 -> extends s1 s3.
Proof.
  intros [[n1 H1] T1] [[n2 H2] T2]. split; [|set_solver].
  exists (n1 ++ n2). by rewrite H2, H1, app_assoc.
Qed.

Lemma extends_same s s' :
  loop s' = loop s -> _tasks s' = _tasks s -> extends s s'.
Proof. intros Hl Ht. split; [exists []; by rewrite app_nil_r, Hl | by rewrite Ht]. Qed.

Lemma extends_create_task c ctx s : extends s (_create_task c ctx s).1.
Proof. split; simpl; [by eexists | set_solver]. Qed.

Lemma terminal_extends s s' task : extends s s' -> terminal s task -> terminal s' task.
Proof.
  intros [[new Hl] _] [r Hr]. exists r. rewrite Hl. by apply lookup_app_l_Some.
Qed.

Lemma settled_extends s s' task : extends s s' -> settled s task -> settled s' task.
Proof.
  intros Hext [Hdone|[[t Ht] Hin]]; [left; by eapply terminal_extends|].
  right. destruct Hext as [[new Hl] Hsub]. split; [|set_solver].
  exists t. rewrite Hl. by apply lookup_app_l_Some.
Qed.

Lemma await_send_extends session n s : extends s (await_send delivery session n s).1.
Proof.
  unfold await_send. destruct (delivery _ _ _); simpl;
    [apply extends_refl | by apply extends_same].
Qed.

Lemma run_coroutine_extends c ctx s :
  extends s (run_coroutine delivery AnyUrl c ctx s).1.
Proof.
  destruct c as [session n| |uri| |]; simpl.
  - apply await_send_extends.
  - unfold notify_resource_list_changed, try_except.
    rewrite GatewayFacts.bind_run.
    destruct ctx as [session|]; simpl; [|by apply extends_same].
    unfold await_send. destruct (delivery _ _ _) as [e|]; simpl;
      [|by apply extends_same].
    destruct (is_RuntimeError e); by apply extends_same.
  - unfold notify_resource_change. rewrite GatewayFacts.bind_run.
    unfold gets at 1. destruct (bool_decide _); [|apply extends_refl].
    unfold try_except. rewrite GatewayFacts.bind_run.
    destruct ctx as [session|]; simpl; [|by apply extends_same].
    rewrite GatewayFacts.bind_run. unfold lift.
    destruct (AnyUrl uri) as [e|url]; simpl; [by apply extends_same|].
    unfold await_send. destruct (delivery _ _ _) as [e|]; simpl;
      by apply extends_same.
  - destruct ctx as [session|]; simpl; [|by apply extends_same].
    apply (extends_create_task (Send session PromptListChanged) (Some session) s).
  - destruct ctx as [session|]; simpl; [|by apply extends_same].
    apply (extends_create_task (Send session ToolListChanged) (Some session) s).
Qed.

Lemma finish_terminal task r s :
  is_Some (loop s !! task) -> terminal (finish task r s) task.
Proof.
  intros Hsome. exists r. simpl.
  apply list_lookup_insert_eq. by apply lookup_lt_is_Some.
Qed.

Lemma finish_keeps_terminal task r s other :
  terminal s other -> terminal (finish task r s) other.
Proof.
  intros [r' Hr]. destruct (decide (task = other)) as [->|Hne].
  - apply finish_terminal. by eexists.
  - exists r'. simpl. by rewrite list_lookup_insert_ne.
Qed.

Lemma finish_keeps_settled task r s other :
  settled s other -> settled (finish task r s) other.
Proof.
  intros [Hdone|[[t Ht] Hin]]; [left; by apply finish_keeps_terminal|].
  destruct (decide (task = other)) as [->|Hne].
  - left. apply finish_terminal. by eexists.
  - right. split; simpl; [|set_solver].
    exists t. by rewrite list_lookup_insert_ne.
Qed.

Lemma settled_is_Some s task : settled s task -> is_Some (loop s !! task).
Proof. intros [[r Hr]|[[t Ht] _]]; by eexists. Qed.

Lemma run_task_cases task s :
  run_task delivery AnyUrl task s = s
  ∨ ∃ s' r, extends s s' ∧ run_task delivery AnyUrl task s = finish task r s'
            ∧ is_Some (loop s !! task).
Proof.
  unfold run_task. destruct (loop s !! task) as [[t|r]|] eqn:Hl; [|by left..].
  right. destruct (cancelling t).
  - exists s, Cancelled. split_and!; [apply extends_refl|done|by eexists].
  - pose proof (run_coroutine_extends (coro t) (context t) s) as Hext.
    destruct (run_coroutine delivery AnyUrl (coro t) (context t) s) as [s' [e|[]]];
      simpl in Hext; eexists s', _; (split_and!; [done|done|by eexists]).
Qed.

Lemma run_task_keeps_terminal task s other :
  terminal s other -> terminal (run_task delivery AnyUrl task s) other.
Proof.
  intros Hdone. destruct (run_task_cases task s) as [->|(s' & r & Hext & -> & _)];
    [done|].
  apply finish_keeps_terminal. by eapply terminal_extends.
Qed.

Lemma run_task_keeps_settled task s other :
  settled s other -> settled (run_task delivery AnyUrl task s) other.
Proof.
  intros Hdone. destruct (run_task_cases task s) as [->|(s' & r & Hext & -> & _)];
    [done|].
  apply finish_keeps_settled. by eapply settled_extends.
Qed.

(** A settled task that gets its turn is terminal afterwards. *)
Lemma run_task_settles task s :
  settled s task -> terminal (run_task delivery AnyUrl task s) task.
Proof.
  intros Hset. unfold run_task.
  destruct (loop s !! task) as [[t|r]|] eqn:Hl.
  - assert (Hfin : ∀ s' r, extends s s' -> terminal (finish task r s') task).
    { intros s' r [[new Hnew] _]. apply finish_terminal.
      rewrite Hnew. exists (Pending t). by apply lookup_app_l_Some. }
    destruct (cancelling t); [apply Hfin, extends_refl|].
    pose proof (run_coroutine_extends (coro t) (context t) s) as Hext.
    destruct (run_coroutine delivery AnyUrl (coro t) (context t) s) as [s' [e|[]]];
      by apply Hfin.
  - by exists r.
  - apply settled_is_Some in Hset. rewrite Hl in Hset. by destruct Hset.
Qed.

Lemma loop_event_keeps ev s task :
  (terminal s task -> terminal (loop_event delivery AnyUrl s ev) task)
  ∧ (settled s task -> settled (loop_event delivery AnyUrl s ev) task).
Proof.
  destruct ev as [t|c ctx]; simpl.
  - split; [apply run_task_keeps_terminal | apply run_task_keeps_settled].
  - pose proof (extends_create_task c ctx s) as Hext.
    split; [by apply terminal_extends | by apply settled_extends].
Qed.

Lemma await_keeps a s task :
  (terminal s task -> terminal (await delivery AnyUrl a s).1 task)
  ∧ (settled s task -> settled (await delivery AnyUrl a s).1 task).
Proof.
  unfold await. simpl. generalize (meanwhile a). intros evs. revert s.
  induction evs as [|ev evs IH]; intros s; simpl; [done|].
  destruct (loop_event_keeps ev s task) as [Ht Hs].
  destruct (IH (loop_event delivery AnyUrl s ev)) as [Ht' Hs']. auto.
Qed.

Lemma cancel_tracked_keeps s task :
  (terminal s task -> terminal (cancel_tracked s).1 task)
  ∧ (settled s task -> settled (cancel_tracked s).1 task)
  ∧ _tasks (cancel_tracked s).1 = _tasks s.
Proof.
  assert (Ht : terminal s task -> terminal (cancel_tracked s).1 task).
  { intros [r Hr]. exists r. simpl. rewrite list_lookup_imap, Hr. simpl.
    by destruct (bool_decide _). }
  split_and!; [done| |done].
  intros [Hdone|[[t Hp] Hin]]; [left; auto|].
  right. split; [|done]. simpl. rewrite list_lookup_imap, Hp. simpl.
  destruct (bool_decide _); by eexists.
Qed.

Lemma run_given_keeps_terminal given : ∀ s task,
  terminal s task ->
  terminal (fold_left (λ s t, run_task delivery AnyUrl t s) given s) task.
Proof.
  induction given as [|t given IH]; intros s task Hdone; simpl; [done|].
  by apply IH, run_task_keeps_terminal.
Qed.

(** Once [gather] has waited for the tasks it was given, each of them
    that was settled is terminal. *)
Lemma run_given_settles given : ∀ s task,
  task ∈ given -> settled s task ->
  terminal (fold_left (λ s t, run_task delivery AnyUrl t s) given s) task.
Proof.
  induction given as [|t given IH]; intros s task Hin Hset; simpl.
  - by apply elem_of_nil in Hin.
  - apply elem_of_cons in Hin as [->|Hin].
    + by apply run_given_keeps_terminal, run_task_settles.
    + by apply IH, run_task_keeps_settled.
Qed.

(** When [gather] returns, every settled task it was given is terminal,
    and so is every task that was terminal before. *)
Lemma await_gather_settles a s s' task :
  await_gather delivery AnyUrl a s = (s', inr tt) ->
  settled s task ->
  terminal s task ∨ task ∈ _tasks s ->
  terminal s' task.
Proof.
  intros Hrun Hset Hgiven. unfold await_gather in Hrun.
  apply GatewayFacts.bind_returns in Hrun as (s0 & given & Hgets & Hrun).
  injection Hgets as <- <-.
  apply GatewayFacts.bind_returns in Hrun as (s1 & [] & Hawait & Hrun).
  injection Hrun as <-.
  destruct (await_keeps a s task) as [Hterm Hsett].
  rewrite Hawait in Hterm, Hsett. simpl in Hterm, Hsett.
  destruct Hgiven as [Hdone|Hin].
  - by apply run_given_keeps_terminal, Hterm.
  - apply run_given_settles; [by apply elem_of_elements | by apply Hsett].
Qed.

(** The cancellation block: when it returns, every task that was settled
    before it is terminal. *)
Lemma cancel_pending_settles env s s' task :
  cancel_pending delivery AnyUrl env s = (s', inr tt) ->
  settled s task -> terminal s' task.
Proof.
  intros Hrun Hset. unfold cancel_pending in Hrun.
  apply GatewayFacts.bind_returns in Hrun as (s0 & tracked & Hgets & Hrun).
  injection Hgets as <- <-.
  destruct (bool_decide (_tasks s ≠ ∅)) eqn:Hany.
  - apply GatewayFacts.bind_returns in Hrun as (s1 & [] & Hcancel & Hrun).
    apply GatewayFacts.bind_returns in Hrun as (s2 & [] & Hgather & Hrun).
    injection Hrun as <-.
    destruct (cancel_tracked_keeps s task) as (_ & Hkeep & Htasks).
    rewrite Hcancel in Hkeep, Htasks. simpl in Hkeep, Htasks.
    assert (Hdone : terminal s2 task).
    { apply (await_gather_settles _ _ _ _ Hgather); [by apply Hkeep|].
      destruct (Hkeep Hset) as [?|[_ ?]]; auto. }
    destruct Hdone as [r Hr]. by exists r.
  - injection Hrun as <-. destruct Hset as [Hdone|[_ Hin]]; [done|].
    apply bool_decide_eq_false in Hany.
    exfalso. apply Hany. intros Hempty. rewrite Hempty in Hin. set_solver.
Qed.

(** No observer has an [events] attribute: the detachment raises before
    the runtime is called, whatever the runtime would do. *)
Lemma call_remove_observer_raises env k s :
  ∃ e, call_remove_observer env k s = (s, inl e)
       ∧ exn_class e = AttributeErrorC.
Proof. destruct k; by eexists. Qed.

Lemma call_remove_resource_observer env s :
  call_remove_observer env resource_observer s = (s, inl events_missing).
Proof. reflexivity. Qed.

Lemma await_returns_keeps a s s' r task :
  await delivery AnyUrl a s = (s', r) ->
  (terminal s task -> terminal s' task) ∧ (settled s task -> settled s' task).
Proof.
  intros Hrun. pose proof (await_keeps a s task) as H. by rewrite Hrun in H.
Qed.

Lemma await_returns a s :
  outcome a = None -> ∃ s', await delivery AnyUrl a s = (s', inr tt).
Proof. intros Hout. unfold await. rewrite Hout. by eexists. Qed.

(** The cancellation block returns when the wait of [gather] is not
    interrupted. *)
Lemma cancel_pending_returns env s :
  outcome (gather env) = None ->
  ∃ s', cancel_pending delivery AnyUrl env s = (s', inr tt).
Proof.
  intros Hout. unfold cancel_pending. rewrite GatewayFacts.bind_run.
  unfold gets at 1. destruct (bool_decide (_tasks s ≠ ∅)); [|by eexists].
  unfold await_gather, await, mbind, Eff_bind, eff_bind. simpl.
  rewrite Hout. by eexists.
Qed.

(** The [try] block of [shutdown] up to the detachment of the
    observers: when its awaits return, every task that was settled at
    its start is terminal, and the block ends with the [AttributeError]
    of the detachment. *)
Lemma shutdown_try_settles env s :
  (injection_server s = true -> outcome (injection_server_stop env) = None) ->
  outcome (transport_shutdown env) = None ->
  outcome (gather env) = None ->
  ∃ s', shutdown_try delivery AnyUrl env s = (s', inl events_missing)
        ∧ ∀ task, settled s task -> terminal s' task.
Proof.
  intros Hstop Htransport Hgather. unfold shutdown_try.
  rewrite GatewayFacts.bind_run. unfold gets at 1. rewrite GatewayFacts.bind_run.
  assert (Hfirst : ∃ s1,
            (if injection_server s
             then await delivery AnyUrl (injection_server_stop env)
             else mret tt) s = (s1, inr tt)
            ∧ ∀ task, settled s task -> settled s1 task).
  { destruct (injection_server s).
    - destruct (await_returns (injection_server_stop env) s (Hstop eq_refl))
        as [s1 Hs1].
      exists s1. split; [done|]. intros task.
      by apply (await_returns_keeps _ _ _ _ _ Hs1).
    - by exists s. }
  destruct Hfirst as (s1 & -> & Hkeep1).
  rewrite GatewayFacts.bind_run.
  destruct (await_returns (transport_shutdown env) s1 Htransport) as [s2 Hs2].
  rewrite Hs2, GatewayFacts.bind_run.
  destruct (cancel_pending_returns env s2 Hgather) as [s3 Hs3].
  rewrite Hs3, GatewayFacts.bind_run, call_remove_resource_observer.
  exists s3. split; [done|]. intros task Hset.
  apply (cancel_pending_settles _ _ _ _ Hs3).
  by apply (await_returns_keeps _ _ _ _ _ Hs2), Hkeep1.
Qed.

(** [shutdown] never returns: a step before the detachment raises, or
    the detachment does. *)
Lemma shutdown_raises env s :
  ∃ e, (shutdown delivery AnyUrl env s).2 = inl e.
Proof.
  unfold shutdown, try_finally.
  destruct (shutdown_try delivery AnyUrl env s) as [s' [e|[]]] eqn:Hrun;
    [by exists e|].
  exfalso. unfold shutdown_try in Hrun.
  apply GatewayFacts.bind_returns in Hrun as (s0 & has & _ & Hrun).
  apply GatewayFacts.bind_returns in Hrun as (s1 & [] & _ & Hrun).
  apply GatewayFacts.bind_returns in Hrun as (s2 & [] & _ & Hrun).
  apply GatewayFacts.bind_returns in Hrun as (s3 & [] & _ & Hrun).
  apply GatewayFacts.bind_returns in Hrun as (s4 & [] & Hobs & _).
  by rewrite call_remove_resource_observer in Hobs.
Qed.

(** C2. Whatever happens during [shutdown], its last step is the
    [finally] block that clears the tracked set: the set is empty
    afterwards, also when an earlier step raised, and the exception of
    that step is what [shutdown] raises.  When the awaits of [shutdown]
    up to and including [gather] return, every task that was in flight
    (tracked and pending) when it was called has reached a terminal
    state (completed, failed or cancelled) once [shutdown] has ended,
    whatever the steps after [gather] do. *)
Theorem shutdown_settles_tasks (env : Environment) (s : Server) :
  let tried := shutdown_try delivery AnyUrl env s in
  let after := shutdown delivery AnyUrl env s in
  _tasks after.1 = ∅
  ∧ after = (set_tasks (λ _, ∅) tried.1, tried.2)
  ∧ (tracked_pending s ->
     (injection_server s = true -> outcome (injection_server_stop env) = None) ->
     outcome (transport_shutdown env) = None ->
     outcome (gather env) = None ->
     ∀ task, task ∈ _tasks s -> terminal after.1 task).
Proof.
  cbv zeta. unfold shutdown, try_finally.
  destruct (shutdown_try delivery AnyUrl env s) as [sb r] eqn:Htry. simpl.
  split_and!; [done|done|].
  intros Hpending Hstop Htransport Hgather task Hin.
  assert (Hset : settled s task) by (right; split; [by apply Hpending | done]).
  destruct (shutdown_try_settles env s Hstop Htransport Hgather)
    as (s' & Hrun & Hdone).
  rewrite Htry in Hrun. injection Hrun as <- _.
  destruct (Hdone task Hset) as [res Hres]. by exists res.
Qed.

End Facts.

(** C2 on a server with two sends in flight, one of which gets its turn
    while the injection server stops; the other is cancelled.  The
    shutdown ends with the [AttributeError] of the detachment. *)
Lemma shutdown_settles_tasks_witness :
  let after := shutdown Samples.delivers Samples.any_url Samples.calm
                        Samples.two_in_flight in
  after.2 = inl events_missing
  ∧ _tasks after.1 = ∅
  ∧ ∀ task, task ∈ _tasks Samples.two_in_flight -> terminal after.1 task.
Proof.
  pose proof (shutdown_settles_tasks Samples.delivers Samples.any_url
                Samples.calm Samples.two_in_flight) as (Hempty & _ & Hdone).
  split_and!; [by vm_compute | exact Hempty |].
  apply Hdone; [|reflexivity..].
  intros task Hin. unfold Samples.two_in_flight in *. simpl in *.
  apply elem_of_union in Hin as [Hin|Hin]; apply elem_of_singleton in Hin as ->;
    by eexists.
Defined.

(** What the two tasks of the sample came to. *)
Example shutdown_sample_results :
  loop (shutdown Samples.delivers Samples.any_url Samples.calm
                 Samples.two_in_flight).1
  = [ Done Completed; Done Cancelled;
      Pending (mkTask NotifyToolListChanged None false) ].
Proof. by vm_compute. Qed.

(** When an earlier step raises, the set is cleared all the same, and the
    tasks are left as they were. *)
Example shutdown_transport_raises :
  let env := mkEnvironment (mkAwait [] None)
               (mkAwait [] (Some (mkExn OtherException "transport")))
               (mkAwait [] None) (λ _, None) (mkAwait [] None) in
  let after := shutdown Samples.delivers Samples.any_url env Samples.two_in_flight in
  after.2 = inl (mkExn OtherException "transport")
  ∧ _tasks after.1 = ∅
  ∧ loop after.1 = loop Samples.two_in_flight.
Proof. by vm_compute. Qed.


(** A send that fails with a [RuntimeError] is taken for a missing
    session by [notify_resource_list_changed]: it is logged at debug
    level. *)
Example resource_list_changed_runtime_error :
  let broken := λ _ _ _, Some (mkExn RuntimeErrorC "Event loop is closed") in
  notify_resource_list_changed broken (Some 7) Samples.idle
  = (debug_logged Samples.idle, inr tt).
Proof. reflexivity. Qed.


(** The observers of the test suite: a resource is added, changed and
    removed; three tasks are tracked, and once the loop has run them the
    session was told of two list changes (the change is not sent: there
    is no subscription). *)
Example resource_observer_sample :
  let uri_of (_ : unit) (key : string) := "text://" +:+ key in
  let events := [added "test" tt; changed "test" tt; removed "test" tt] in
  let observed :=
    (for_each (ResourceObserver (λ _ : unit, tt) uri_of (Some 7)) events
              Samples.idle).1 in
  let ran :=
    fold_left (λ s task, run_task Samples.delivers Samples.any_url task s)
              [0; 1; 2] observed in
  map (λ st, match st with Pending t => Some (coro t) | Done _ => None end)
      (loop observed)
  = [ Some NotifyResourceListChanged;
      Some (NotifyResourceChange "text://test");
      Some NotifyResourceListChanged ]
  ∧ outbox observed = []
  ∧ outbox ran = [(7, ResourceListChanged); (7, ResourceListChanged)]
  ∧ _tasks ran = ∅.
Proof. by vm_compute. Qed.

(** C4 as stated fails: with a session attached and a working transport,
    [notify_resource_list_changed] returns after the notification was
    delivered, and no task was created for the send. *)
Lemma resource_list_changed_sends_inline :
  let after := (notify_resource_list_changed Samples.delivers (Some 7) Samples.idle).1 in
  outbox after = [(7, ResourceListChanged)]
  ∧ _tasks after = ∅
  ∧ loop after = [].
Proof. by vm_compute. Qed.

(** C4 read on an idle server. *)
Lemma notify_scheduling_witness :
  notify_resource_change Samples.delivers Samples.any_url "text://other" (Some 7)
    Samples.subscribed_elsewhere
  = (set_outbox (λ _, [(7, ResourceUpdated "text://other")])
                Samples.subscribed_elsewhere,
     inr tt).
Proof.
  apply (proj1 (proj2 (proj2 (proj2 (proj2
           (notify_scheduling Samples.delivers Samples.any_url 7
                              Samples.subscribed_elsewhere)))))
           "text://other" "text://other");
    [|reflexivity|reflexivity].
  apply elem_of_dom. vm_compute. eauto.
Defined.

(** C6 on the scenario of the specification: the loader's URI is
    ["text://doc1"] and the table has no entry for it. *)
Lemma notify_resource_change_unsubscribed_witness :
  notify_resource_change Samples.delivers Samples.any_url "text://doc1" (Some 7)
    Samples.subscribed_elsewhere
  = (Samples.subscribed_elsewhere, inr tt).
Proof.
  apply (proj1 (notify_resource_change_unsubscribed Samples.delivers Samples.any_url
                  "text://doc1" (Some 7) Samples.subscribed_elsewhere)).
  rewrite elem_of_dom. vm_compute. by intros [? ?].
Defined.

End DispatcherFacts.

(** * More properties of the gateway *)

Module GatewayMore.
Import Gateway Inventory.

(** X1. The discriminator of a raw resource entry selects a resource
    class exactly when it is the string that class is matched on: one of
    the six literals, compared as written (case matters, and any value
    that is not a string selects none). *)
Theorem match_resource_type_literal (resource_type : Json) (cls : ResourceClass) :
  match_resource_type resource_type = Some cls
  ↔ resource_type = JStr (class_literal cls).
Proof.
  split.
  - destruct resource_type as [| | |t| |]; simpl; try discriminate.
    repeat match goal with
           | |- context [String.eqb t ?lit] =>
               destruct (String.eqb_spec t lit) as [->|_]; [by intros [= <-]|]
           end.
    discriminate.
  - intros ->. by destruct cls.
Qed.

Section More.

Context {Runtime Resource ToolConfig : Type}.
Context `{!@Collaborators Runtime Resource ToolConfig}.

Abbreviation Request' := (@ConfigUpdateRequest Resource ToolConfig).

(** X2. A payload whose [resources] and [tools] are absent or falsy
    (null, an empty mapping, an empty list, zero, ...) succeeds and
    leaves the runtime untouched. *)
Theorem inject_config_nothing_to_do (config : list (string * Json)) (rt : Runtime) :
  truthy (dict_get "resources" config) = false ->
  truthy (dict_get "tools" config) = false ->
  inject_config config rt
  = (rt, Returned (SuccessResponse "Config injected successfully"
                                   CT_tool "yaml_injection")).
Proof.
  intros Hres Htools. rewrite GatewayFacts.inject_config_run.
  unfold inject_section. by rewrite Hres, Htools.
Qed.

(** X3. A [resources] value that is truthy but no mapping, or a first
    resource entry that is no mapping, is answered 400 with the text of
    the [AttributeError] of the missing method, and nothing is
    registered. *)
Theorem inject_config_not_a_mapping (config : list (string * Json)) (rt : Runtime) :
  (∀ section,
     dict_get "resources" config = section ->
     truthy section = true ->
     (∀ d, section ≠ JDict d) ->
     inject_config config rt
     = (rt, HTTPError {| status_code := 400;
                         detail := "'" +:+ py_type_name section
                                   +:+ "' object has no attribute 'items'" |}))
  ∧ (∀ name entry rest,
       dict_get "resources" config = JDict ((name, entry) :: rest) ->
       (∀ d, entry ≠ JDict d) ->
       inject_config config rt
       = (rt, HTTPError {| status_code := 400;
                           detail := "'" +:+ py_type_name entry
                                     +:+ "' object has no attribute 'get'" |})).
Proof.
  split.
  - intros section Hget Htruthy Hnot.
    rewrite GatewayFacts.inject_config_run. unfold inject_section.
    rewrite Hget, Htruthy, GatewayFacts.bind_run. unfold lift.
    destruct section; try done. by destruct (Hnot d).
  - intros name entry rest Hget Hnot.
    rewrite GatewayFacts.inject_config_run.
    rewrite (GatewayFacts.inject_section_items _ _ _ _ Hget). simpl.
    rewrite !GatewayFacts.bind_run. unfold lift.
    destruct entry; try done. by destruct (Hnot d).
Qed.

(** X4. The summary of [bulk_update] has exactly the keys ["success"] and
    ["error"], and the two counts add up to the number of results. *)
Theorem bulk_update_summary_total (request : Request') (rt : Runtime) :
  let report := (bulk_update request rt).2 in
  ∃ n m,
    summary report !! "success" = Some n
    ∧ summary report !! "error" = Some m
    ∧ n + m = length (results report)
    ∧ ∀ key, key ≠ "success" -> key ≠ "error" -> summary report !! key = None.
Proof.
  cbv zeta. rewrite GatewayFacts.bulk_update_apply_each. cbv zeta.
  destruct (apply_each (apply_resource _) _ rt) as [rt1 rr].
  destruct (apply_each (apply_tool _) _ rt1) as [rt2 tr]. simpl.
  set (rs := rr ++ tr).
  exists (length (filter (λ r, status r = St_success) rs)),
         (length (filter (λ r, status r = St_error) rs)).
  split_and!.
  - by rewrite (GatewayFacts.tally_success _ _ 0).
  - by rewrite (GatewayFacts.tally_error _ _ 0).
  - apply GatewayFacts.count_success_error.
  - intros key Hs He.
    assert (Hkeep : ∀ l (sm : gmap string nat),
              sm !! key = None -> tally l sm !! key = None).
    { induction l as [|r l IH]; intros sm Hsm; simpl; [done|].
      apply IH. unfold incr. rewrite lookup_alter_ne; [done|].
      unfold status_key. by destruct (status r). }
    apply Hkeep. rewrite lookup_insert_ne by done.
    by rewrite lookup_singleton_ne.
Qed.

(** X5. A request whose [resources] and [tools] are both absent or empty
    changes nothing: the report has no entry and both counts are zero. *)
Theorem bulk_update_empty (request : Request') (rt : Runtime) :
  (resources request = None ∨ resources request = Some []) ->
  (tools request = None ∨ tools request = Some []) ->
  bulk_update request rt
  = (rt, {| results := []; summary := {["success" := 0; "error" := 0]} |}).
Proof.
  intros [Hr|Hr] [Ht|Ht]; unfold bulk_update; by rewrite Hr, Ht.
Qed.

(** X6. Adding one component through its own route and through a batch
    of one (replacing allowed) come to the same: the same runtime, and
    the route's success body is the batch's only result, while its 400
    detail is the message of the batch's only, failed, result. *)
Theorem add_as_batch_of_one (name : string) (rt : Runtime) :
  (∀ resource,
     let batch := bulk_update {| resources := Some [(name, resource)];
                                 tools := None;
                                 replace_existing := true |} rt in
     let single := add_resource name resource rt in
     single.1 = batch.1
     ∧ match single.2 with
       | Returned body => results batch.2 = [body]
       | HTTPError e =>
           status_code e = 400
           ∧ results batch.2 = [ErrorResponse (detail e) CT_resource name]
       | Unhandled _ => False
       end)
  ∧ (∀ tool,
       let batch := bulk_update {| resources := None;
                                   tools := Some [(name, tool)];
                                   replace_existing := true |} rt in
       let single := add_tool name tool rt in
       single.1 = batch.1
       ∧ match single.2 with
         | Returned body => results batch.2 = [body]
         | HTTPError e =>
             status_code e = 400
             ∧ results batch.2 = [ErrorResponse (detail e) CT_tool name]
         | Unhandled _ => False
         end).
Proof.
  split.
  - intros resource. unfold bulk_update, add_resource. simpl.
    by destruct (register_resource name resource true rt).
  - intros tool. unfold bulk_update, add_tool. simpl.
    by destruct (tool_registry_register name tool true rt).
Qed.

(** *** The WebSocket handler, frame by frame *)

Lemma handle_frame_validated raw_data c message :
  WebSocketMessage_model_validate raw_data = inr message ->
  handle_frame raw_data c
  = match
      match msg_type message with
      | Update =>
          match msg_data message with
          | inr d =>
              (req ← lift (ConfigUpdateRequest_model_validate d);
               response ← await_bulk_update req;
               send_json {| resp_type := ws_success;
                            resp_data := DataComponents (results response);
                            resp_request_id := msg_request_id message;
                            resp_message := Some "Components updated successfully" |})
                (bound message c)
          | inl _ => (bound message c, inr tt)
          end
      | Query =>
          (replied {| resp_type := ws_success;
                      resp_data := DataDict (names_json
                                     (list_components (conn_runtime c)));
                      resp_request_id := msg_request_id message;
                      resp_message := None |} (bound message c), inr tt)
      | Error => (bound message c, inr tt)
      end
    with
    | (c', inr _) => (c', inr tt)
    | (c', inl e) => report_failure e c'
    end.
Proof.
  intros Hmsg. unfold handle_frame, try_except, handle_message, bind_message.
  rewrite !GatewayFacts.bind_run. unfold lift at 1. rewrite Hmsg.
  rewrite GatewayFacts.bind_run. unfold modify at 1, mret, Eff_ret, eff_ret.
  fold (bound message c).
  destruct (msg_type message); [destruct (msg_data message)|..]; try done.
  match goal with
  | |- context [match ?run with (_, _) => _ end] =>
      destruct run as [c' [e|[]]]
  end; done.
Qed.

(** X7. A [query] message is answered, on the same connection, with one
    success envelope that carries its [request_id], no message text and
    the names of the registered resources, tools and prompts; the
    runtime is not changed. *)
Theorem websocket_query_reply (raw_data : Json)
    (c : @Connection Runtime Resource ToolConfig)
    (message : WebSocketMessage) :
  WebSocketMessage_model_validate raw_data = inr message ->
  msg_type message = Query ->
  handle_frame raw_data c
  = (replied {| resp_type := ws_success;
                resp_data :=
                  DataDict
                    [ ("resources",
                       JList (map JStr (list_resource_names (conn_runtime c))));
                      ("tools",
                       JList (map JStr (list_tool_names (conn_runtime c))));
                      ("prompts",
                       JList (map JStr (list_prompt_names (conn_runtime c)))) ];
                resp_request_id := msg_request_id message;
                resp_message := None |} (bound message c),
     inr tt).
Proof.
  intros Hmsg Htype. by rewrite (handle_frame_validated _ _ _ Hmsg), Htype.
Qed.

(** X8. An [error] message, and an [update] message whose [data] was
    validated into a request object rather than left a plain mapping,
    get no reply and change nothing. *)
Theorem websocket_no_reply (raw_data : Json)
    (c : @Connection Runtime Resource ToolConfig)
    (message : WebSocketMessage) :
  WebSocketMessage_model_validate raw_data = inr message ->
  msg_type message = Error
  ∨ (msg_type message = Update ∧ ∃ req, msg_data message = inl req) ->
  handle_frame raw_data c = (bound message c, inr tt).
Proof.
  intros Hmsg [Htype|[Htype [req Hdata]]];
    rewrite (handle_frame_validated _ _ _ Hmsg), Htype; [done|].
  by rewrite Hdata.
Qed.

(** X9. An [update] message whose [data] does not validate as a request
    is answered with one error envelope, "Operation failed", that carries
    its [request_id]; no item of it is applied, the valid ones
    included. *)
Theorem websocket_update_rejected (raw_data : Json)
    (c : @Connection Runtime Resource ToolConfig)
    (message : WebSocketMessage) (d : list (string * Json)) (e : Exn) :
  WebSocketMessage_model_validate raw_data = inr message ->
  msg_type message = Update ->
  msg_data message = inr d ->
  ConfigUpdateRequest_model_validate d = inl e ->
  handle_frame raw_data c
  = (replied (failure_envelope (msg_request_id message)) (bound message c),
     inr tt).
Proof.
  intros Hmsg Htype Hdata Hreq.
  rewrite (handle_frame_validated _ _ _ Hmsg), Htype, Hdata.
  rewrite GatewayFacts.bind_run. unfold lift. by rewrite Hreq.
Qed.

Lemma handle_frame_invalid raw_data e
    (c : @Connection Runtime Resource ToolConfig) :
  WebSocketMessage_model_validate raw_data = inl e ->
  handle_frame raw_data c = report_failure e c.
Proof.
  intros Hmsg. unfold handle_frame, try_except, handle_message, bind_message.
  rewrite !GatewayFacts.bind_run. unfold lift at 1. by rewrite Hmsg.
Qed.

Lemma report_failure_bound e (c : @Connection Runtime Resource ToolConfig)
    previous :
  conn_message c = Some previous ->
  report_failure e c
  = (replied (failure_envelope (msg_request_id previous)) c, inr tt).
Proof.
  intros Hbound. unfold report_failure. rewrite GatewayFacts.bind_run.
  unfold gets. by rewrite Hbound.
Qed.

(** X10. A frame that does not validate as a message is answered with an
    error envelope that carries the [request_id] of the last message
    that did validate on this connection, not its own.  When no message
    has validated yet, the handler ends with an [UnboundLocalError]:
    nothing is sent and the frames that follow are not read. *)
Theorem websocket_invalid_frame (raw_data : Json) (e : Exn) :
  WebSocketMessage_model_validate raw_data = inl e ->
  (∀ c previous,
     conn_message c = Some previous ->
     handle_frame raw_data c
     = (replied (failure_envelope (msg_request_id previous)) c, inr tt))
  ∧ (∀ rest rt,
       ∃ e', websocket_endpoint (raw_data :: rest) rt
             = ({| conn_runtime := rt; conn_message := None; conn_sent := [] |},
                inl e')
             ∧ exn_class e' = UnboundLocalErrorC).
Proof.
  intros Hmsg. split.
  - intros c previous Hbound.
    by rewrite (handle_frame_invalid _ _ _ Hmsg), (report_failure_bound _ _ previous).
  - intros rest rt. eexists. unfold websocket_endpoint. simpl.
    rewrite GatewayFacts.bind_run, (handle_frame_invalid _ _ _ Hmsg).
    unfold report_failure. rewrite GatewayFacts.bind_run. simpl.
    split; reflexivity.
Qed.

Lemma handle_frame_bound raw_data (c : @Connection Runtime Resource ToolConfig) :
  is_Some (conn_message c) ->
  let after := handle_frame raw_data c in
  after.2 = inr tt
  ∧ is_Some (conn_message after.1)
  ∧ ∃ sent, conn_sent after.1 = conn_sent c ++ sent ∧ length sent ≤ 1.
Proof.
  intros [previous Hprev]. cbv zeta.
  destruct (WebSocketMessage_model_validate raw_data) as [e|message] eqn:Hmsg.
  - rewrite (handle_frame_invalid _ _ _ Hmsg), (report_failure_bound _ _ previous)
      by done.
    simpl.
    split_and!; [done|by rewrite Hprev|]. eexists [_]. split; [done|simpl; lia].
  - rewrite (handle_frame_validated _ _ _ Hmsg).
    assert (Hfail : ∀ e (c' : @Connection Runtime Resource ToolConfig),
              conn_message c' = Some message ->
              report_failure e c'
              = (replied (failure_envelope (msg_request_id message)) c', inr tt))
      by (intros e c' Hc'; by apply report_failure_bound).
    destruct (msg_type message).
    + destruct (msg_data message) as [req|d].
      * simpl. split_and!; [done|done|]. exists []. split; [by rewrite app_nil_r | simpl; lia].
      * rewrite GatewayFacts.bind_run. unfold lift.
        destruct (ConfigUpdateRequest_model_validate d) as [e|req].
        -- rewrite Hfail by done. simpl. split_and!; [done|done|].
           eexists [_]. split; [done|simpl; lia].
        -- rewrite GatewayFacts.bind_run. unfold await_bulk_update. simpl.
           destruct (bulk_update req (conn_runtime c)) as [rt' response]. simpl.
           split_and!; [done|done|]. eexists [_]. split; [done|simpl; lia].
    + simpl. split_and!; [done|done|]. eexists [_]. split; [done|simpl; lia].
    + simpl. split_and!; [done|done|]. exists []. split; [by rewrite app_nil_r | simpl; lia].
Qed.

(** X11. Once a message has validated on a connection, the handler
    cannot fail any more: whatever frames follow, it ends without an
    error when the peer disconnects, what it sent before stays sent, and
    it sends at most one envelope per frame. *)
Theorem websocket_never_fails_once_bound (frames : list Json)
    (c : @Connection Runtime Resource ToolConfig) :
  is_Some (conn_message c) ->
  let after := for_each handle_frame frames c in
  after.2 = inr tt
  ∧ ∃ sent, conn_sent after.1 = conn_sent c ++ sent
            ∧ length sent ≤ length frames.
Proof.
  revert c. induction frames as [|raw_data frames IH]; intros c Hbound; cbv zeta.
  - simpl. split; [done|]. exists []. split; [by rewrite app_nil_r | simpl; lia].
  - simpl. rewrite GatewayFacts.bind_run.
    destruct (handle_frame_bound raw_data c Hbound) as (Hret & Hb & one & Hone & Hlen).
    destruct (handle_frame raw_data c) as [c1 r1]. simpl in *. subst r1.
    destruct (IH c1 Hb) as (Hret' & more & Hmore & Hlen').
    split; [done|]. exists (one ++ more).
    rewrite Hmore, Hone, length_app, app_assoc. split; [done|lia].
Qed.

(** *** The listing routes and removal after adding *)

Section WithCatalogue.

Context {Tool Schema : Type}.
Context `{!@Catalogue Runtime Resource Tool Schema}.

Lemma comprehension_raise {A B} (f : string -> A -> Exn + B) pre name x post e :
  Forall (λ item, returned (f item.1 item.2) = true) pre ->
  f name x = inl e ->
  comprehension f (pre ++ (name, x) :: post) = inl e.
Proof.
  induction pre as [|[n y] pre IH]; intros Hpre Hx; simpl.
  - by rewrite Hx.
  - apply Forall_cons in Hpre as [Hy Hpre]. simpl in Hy.
    destruct (f n y); [done|]. by rewrite IH.
Qed.

Lemma comprehension_return {A B} (f : string -> A -> Exn + B) items :
  Forall (λ item, returned (f item.1 item.2) = true) items ->
  ∃ listing, comprehension f items = inr listing
             ∧ listing.*1 = items.*1
             ∧ Forall2 (λ item entry,
                          entry.1 = item.1 ∧ f item.1 item.2 = inr entry.2)
                       items listing.
Proof.
  induction items as [|[n y] items IH]; intros Hall; simpl.
  - by exists [].
  - apply Forall_cons in Hall as [Hy Hall]. simpl in Hy.
    destruct (f n y) as [e|v] eqn:Hf; [done|].
    destruct (IH Hall) as (listing & -> & Hnames & Hvals).
    exists ((n, v) :: listing). simpl. split_and!; [done|by f_equal|].
    by constructor.
Qed.

(** X12. [list_tools] answers 500, with the text of the first schema
    that cannot be built, as soon as one tool's [get_schema] raises, and
    never lets an exception escape; when every schema can be built it
    returns one entry per tool, under the tool's name and in the
    runtime's order. *)
Theorem list_tools_outcome (rt : Runtime) :
  (∀ pre name (tool : Tool) post e,
     runtime_tools rt = pre ++ (name, tool) :: post ->
     Forall (λ item, returned (get_schema item.2) = true) pre ->
     get_schema tool = inl e ->
     list_tools rt
     = HTTPError {| status_code := 500;
                    detail := "Failed to get tool schemas: " +:+ exn_str e |})
  ∧ (Forall (λ item, returned (get_schema item.2) = true) (runtime_tools rt) ->
     ∃ listing,
       list_tools rt = Returned listing
       ∧ listing.*1 = (runtime_tools rt).*1
       ∧ Forall2 (λ item entry,
                    entry.1 = item.1 ∧ get_schema item.2 = inr entry.2)
                 (runtime_tools rt) listing)
  ∧ (∀ e, list_tools rt ≠ Unhandled e).
Proof.
  split_and!.
  - intros pre name tool post e Htools Hpre Hbad. unfold list_tools.
    rewrite Htools.
    by rewrite (comprehension_raise (λ _ t, get_schema t) pre name tool post e).
  - intros Hall. unfold list_tools.
    destruct (comprehension_return (λ _ t, get_schema t) _ Hall)
      as (listing & -> & Hnames & Hvals).
    by exists listing.
  - intros e. unfold list_tools. by destruct (comprehension _ _).
Qed.

(** X13. [list_resources] has no handler of its own: it returns one
    entry per listed name, in listing order, when every listed name can
    be looked up, and lets the first failing lookup escape. *)
Theorem list_resources_outcome (rt : Runtime) :
  (Forall (λ name, returned (resource_registry_getitem name rt) = true)
          (list_resource_names rt) ->
   ∃ listing,
     list_resources rt = Returned listing
     ∧ listing.*1 = list_resource_names rt
     ∧ Forall (λ entry, resource_registry_getitem entry.1 rt = inr entry.2) listing)
  ∧ (∀ pre name post e,
       list_resource_names rt = pre ++ name :: post ->
       Forall (λ name, returned (resource_registry_getitem name rt) = true) pre ->
       resource_registry_getitem name rt = inl e ->
       list_resources rt = Unhandled e).
Proof.
  split.
  - intros Hall. unfold list_resources.
    destruct (comprehension_return
                (λ name (_ : unit), resource_registry_getitem name rt)
                (map (λ name, (name, tt)) (list_resource_names rt)))
      as (listing & -> & Hnames & Hvals).
    { apply Forall_fmap. by eapply Forall_impl. }
    exists listing. split_and!; [done| |].
    + rewrite Hnames. rewrite <- list_fmap_compose.
      by rewrite list_fmap_id.
    + clear Hnames Hall. revert listing Hvals.
      induction (list_resource_names rt) as [|n ns IH]; intros listing Hvals;
        simpl in Hvals.
      * by apply Forall2_nil_inv_l in Hvals as ->.
      * apply Forall2_cons_inv_l in Hvals
          as ([n' v] & rest & [Hn Hv] & Hrest & ->).
        simpl in *. subst n'. constructor; [done|by apply IH].
  - intros pre name post e Hnames Hpre Hbad. unfold list_resources.
    rewrite Hnames, map_app. simpl.
    rewrite (comprehension_raise
               (λ name (_ : unit), resource_registry_getitem name rt)
               (map (λ name, (name, tt)) pre) name tt
               (map (λ name, (name, tt)) post) e); [done| |done].
    apply Forall_fmap. by eapply Forall_impl.
Qed.

(** X14. A component that was just added can be removed, once: after a
    successful add, the first removal of the name succeeds and the second
    is not found (404). *)
Theorem add_then_remove_twice `{!MappingInsertion} `{!MappingDeletion}
    (name : string) (rt : Runtime) :
  (∀ resource rt1 body,
     add_resource name resource rt = (rt1, Returned body) ->
     ∃ rt2,
       remove_resource name rt1
       = (rt2, Returned (SuccessResponse ("Resource " +:+ name +:+ " removed")
                                         CT_resource name))
       ∧ remove_resource name rt2
         = (rt2, HTTPError {| status_code := 404;
                              detail := "Resource " +:+ name +:+ " not found" |}))
  ∧ (∀ tool rt1 body,
       add_tool name tool rt = (rt1, Returned body) ->
       ∃ rt2,
         remove_tool name rt1
         = (rt2, Returned (SuccessResponse ("Tool " +:+ name +:+ " removed")
                                           CT_tool name))
         ∧ remove_tool name rt2
           = (rt2, HTTPError {| status_code := 404;
                                detail := "Tool " +:+ name +:+ " not found" |})).
Proof.
  split.
  - intros resource rt1 body. unfold add_resource.
    destruct (register_resource name resource true rt) as [e|rt'] eqn:Hreg; [done|].
    intros [= <- _].
    pose proof (register_resource_listed _ _ _ _ _ Hreg) as Hin.
    destruct (del_resource_present name rt' Hin) as (rt2 & Hdel & Hgone).
    destruct (del_resource_missing name rt2 Hgone) as (e & Hdel2 & He).
    exists rt2. unfold remove_resource. by rewrite Hdel, Hdel2, He.
  - intros tool rt1 body. unfold add_tool.
    destruct (tool_registry_register name tool true rt) as [e|rt'] eqn:Hreg; [done|].
    intros [= <- _].
    pose proof (register_tool_listed _ _ _ _ _ Hreg) as Hin.
    destruct (del_tool_present name rt' Hin) as (rt2 & Hdel & Hgone).
    destruct (del_tool_missing name rt2 Hgone) as (e & Hdel2 & He).
    exists rt2. unfold remove_tool. by rewrite Hdel, Hdel2, He.
Qed.

End WithCatalogue.

End More.

(** *** On the dict-backed runtime *)

Global Instance reference_insertion : @MappingInsertion Reference.Runtime _ _ _.
Proof.
  split; intros name item replace rt rt'; simpl;
    unfold Reference.on_resources, Reference.on_tools, Reference.registry_register;
    destruct (_ && _); try done; intros [= <-]; simpl;
    apply GatewayFacts.names_elem_of; rewrite lookup_insert_eq; by eexists.
Defined.

Lemma inject_config_nothing_to_do_witness :
  inject_config empty_config Samples.holding_r1
  = (Samples.holding_r1,
     Returned (SuccessResponse "Config injected successfully"
                               CT_tool "yaml_injection")).
Proof.
  apply (inject_config_nothing_to_do empty_config Samples.holding_r1);
    reflexivity.
Defined.

Lemma inject_config_not_a_mapping_witness :
  inject_config list_config Reference.empty
  = (Reference.empty,
     HTTPError {| status_code := 400;
                  detail := "'list' object has no attribute 'items'" |})
  ∧ inject_config string_entry_config Reference.empty
    = (Reference.empty,
       HTTPError {| status_code := 400;
                    detail := "'str' object has no attribute 'get'" |}).
Proof.
  split.
  - apply (proj1 (inject_config_not_a_mapping list_config Reference.empty)
             (JList [JStr "a"])); done.
  - apply (proj2 (inject_config_not_a_mapping string_entry_config Reference.empty)
             "a" (JStr "hello") []); done.
Defined.

Lemma bulk_update_empty_witness :
  bulk_update {| resources := Some []; tools := None; replace_existing := false |}
              Samples.holding_b
  = (Samples.holding_b,
     {| results := []; summary := {["success" := 0; "error" := 0]} |}).
Proof.
  apply (bulk_update_empty
           {| resources := Some []; tools := None; replace_existing := false |}
           Samples.holding_b); [by right | by left].
Defined.

Lemma websocket_query_reply_witness :
  conn_sent (handle_frame query_frame
               {| conn_runtime := Samples.holding_r1;
                  conn_message := None; conn_sent := [] |}).1
  = [ {| resp_type := ws_success;
         resp_data := DataDict [ ("resources", JList [JStr "r1"]);
                                 ("tools", JList [JStr "r1"]);
                                 ("prompts", JList []) ];
         resp_request_id := Some "7";
         resp_message := None |} ].
Proof.
  rewrite (websocket_query_reply query_frame _
             (mkWebSocketMessage Query (inr []) (Some "7")));
    [by vm_compute | reflexivity | reflexivity].
Defined.

Lemma websocket_no_reply_witness :
  handle_frame error_frame Samples.fresh_connection
  = (bound (mkWebSocketMessage Error (inr [("reason", JStr "oops")]) None)
           Samples.fresh_connection,
     inr tt).
Proof.
  apply (websocket_no_reply error_frame Samples.fresh_connection);
    [reflexivity | by left].
Defined.

Lemma websocket_update_rejected_witness :
  let after := handle_frame rejected_frame Samples.fresh_connection in
  conn_sent after.1 = [failure_envelope (Some "9")]
  ∧ conn_runtime after.1 = Reference.empty.
Proof.
  cbv zeta.
  rewrite (websocket_update_rejected rejected_frame Samples.fresh_connection
             (mkWebSocketMessage Update (inr Samples.mixed_config) (Some "9"))
             Samples.mixed_config (Reference.validation_error "Resource"));
    [done | reflexivity | reflexivity | reflexivity | reflexivity].
Defined.

Lemma websocket_invalid_frame_witness :
  let first := handle_frame Samples.update_frame Samples.fresh_connection in
  let second := handle_frame (JStr "hello") first.1 in
  map resp_request_id (conn_sent second.1) = [Some "42"; Some "42"]
  ∧ map resp_type (conn_sent second.1) = [ws_success; ws_error].
Proof.
  assert (Hbad : @WebSocketMessage_model_validate _ _ _ Reference.collaborators
                   (JStr "hello")
                 = inl (Reference.validation_error "WebSocketMessage"))
    by reflexivity.
  destruct (websocket_invalid_frame (JStr "hello") _ Hbad) as [Hrun _].
  cbv zeta.
  rewrite (Hrun _ (mkWebSocketMessage Update (inr Samples.update_payload)
                                      (Some "42")));
    [by vm_compute | reflexivity].
Defined.

Lemma websocket_never_fails_once_bound_witness :
  (for_each handle_frame [JStr "hello"; query_frame; rejected_frame]
     (handle_frame Samples.update_frame Samples.fresh_connection).1).2
  = inr tt.
Proof.
  apply (websocket_never_fails_once_bound
           [JStr "hello"; query_frame; rejected_frame]
           (handle_frame Samples.update_frame Samples.fresh_connection).1).
  vm_compute. eauto.
Defined.

Lemma list_tools_outcome_witness :
  list_tools with_broken_tool
  = HTTPError {| status_code := 500;
                 detail := "Failed to get tool schemas: no import path" |}.
Proof.
  apply (proj1 (list_tools_outcome with_broken_tool)
           [] "bad" [("description", JStr "x")] []
           (mkExn OtherException "no import path"));
    [by vm_compute | constructor | reflexivity].
Defined.

Lemma list_resources_outcome_witness :
  list_resources Samples.holding_r1
  = Returned [("r1", [("type", JStr "text"); ("content", JStr "hello")])].
Proof.
  destruct (proj1 (list_resources_outcome Samples.holding_r1))
    as (listing & Hrun & _).
  - vm_compute. repeat constructor.
  - rewrite Hrun. by vm_compute in Hrun |- *.
Defined.

Lemma add_then_remove_twice_witness :
  ∃ rt2,
    remove_resource "r2" (add_resource "r2" [("type", JStr "text")]
                                       Samples.holding_r1).1
    = (rt2, Returned (SuccessResponse "Resource r2 removed" CT_resource "r2"))
    ∧ remove_resource "r2" rt2
      = (rt2, HTTPError {| status_code := 404;
                           detail := "Resource r2 not found" |}).
Proof.
  eapply (proj1 (add_then_remove_twice "r2" Samples.holding_r1)
            [("type", JStr "text")]).
  reflexivity.
Defined.

End GatewayMore.

(** * More properties of the dispatcher *)

Module DispatcherMore.
Import Dispatcher Lifecycle.

Section More.

Variable delivery :
  list (Session * Notification) -> Session -> Notification -> option Exn.
Variable AnyUrl : string -> Exn + string.

(** X15. Without a session [notify_progress] schedules nothing and
    returns: the missing session is logged, at error level.  It never
    raises, whatever the session. *)
Theorem notify_progress_without_session (token : string) (progress : float)
    (total : option float) (description : option string) (s : Server) :
  notify_progress token progress total description None s
  = (error_logged "Failed to send progress notification"
                  (mkExn RuntimeErrorC "No active request context") s,
     inr tt)
  ∧ ∀ ctx s', (notify_progress token progress total description ctx s').2 = inr tt.
Proof.
  split; [done|]. intros [session|] s'; [|done].
  unfold notify_progress, try_except. rewrite GatewayFacts.bind_run. simpl.
  rewrite GatewayFacts.bind_run. simpl.
  by destruct (nonempty_description description).
Qed.

(** X16. For a subscribed URI, [notify_resource_change] swallows every
    failure and logs it at error level under the URI: the missing
    session (which the list-changed operations log at debug level), a
    URI that is no valid URL, and a send that fails.  Nothing is handed
    to the session in these cases, and the operation never raises. *)
Theorem notify_resource_change_failures (uri : string) (s : Server) :
  uri ∈ dom (_subscriptions s) ->
  let logged e :=
    (error_logged ("Failed to notify subscribers about resource change: " +:+ uri)
                  e s,
     inr tt) in
  notify_resource_change delivery AnyUrl uri None s
  = logged (mkExn RuntimeErrorC "No active request context")
  ∧ (∀ session e,
       AnyUrl uri = inl e ->
       notify_resource_change delivery AnyUrl uri (Some session) s = logged e)
  ∧ (∀ session url e,
       AnyUrl uri = inr url ->
       delivery (outbox s) session (ResourceUpdated url) = Some e ->
       notify_resource_change delivery AnyUrl uri (Some session) s = logged e)
  ∧ (∀ ctx, (notify_resource_change delivery AnyUrl uri ctx s).2 = inr tt).
Proof.
  intros Hsub logged.
  assert (Hrun : ∀ ctx,
    notify_resource_change delivery AnyUrl uri ctx s
    = try_except
        (session ← current_session ctx;
         url ← lift (AnyUrl uri);
         await_send delivery session (ResourceUpdated url))
        [ (Exception,
           logger_exception
             ("Failed to notify subscribers about resource change: " +:+ uri)) ]
        s).
  { intros ctx. unfold notify_resource_change. rewrite GatewayFacts.bind_run.
    unfold gets. by rewrite bool_decide_eq_true_2. }
  split_and!.
  - by rewrite Hrun.
  - intros session e Hurl. rewrite Hrun. unfold try_except.
    rewrite GatewayFacts.bind_run. simpl. rewrite GatewayFacts.bind_run.
    unfold lift. by rewrite Hurl.
  - intros session url e Hurl Hfail. rewrite Hrun. unfold try_except.
    rewrite GatewayFacts.bind_run. simpl. rewrite GatewayFacts.bind_run.
    unfold lift. rewrite Hurl. unfold await_send. by rewrite Hfail.
  - intros ctx. rewrite Hrun. unfold try_except.
    rewrite GatewayFacts.bind_run. destruct ctx as [session|]; simpl; [|done].
    rewrite GatewayFacts.bind_run. unfold lift.
    destruct (AnyUrl uri) as [e|url]; [done|].
    unfold await_send. by destruct (delivery _ _ _).
Qed.

(** *** The tracked set holds pending tasks only *)

Lemma appended_same s s' :
  loop s' = loop s -> _tasks s' = _tasks s -> appended s s'.
Proof.
  intros Hl Ht. exists [], None. simpl.
  rewrite Hl, Ht, app_nil_r. split; [done|set_solver].
Qed.

Lemma appended_scheduled calls ctx s : appended s (scheduled calls ctx s).
Proof.
  exists calls, ctx.
  destruct (DispatcherFacts.scheduled_state calls ctx s) as (Hl & Ht & _). done.
Qed.

Lemma run_coroutine_appended c ctx s :
  appended s (run_coroutine delivery AnyUrl c ctx s).1.
Proof.
  destruct c as [session n| |uri| |]; simpl.
  - unfold await_send. destruct (delivery _ _ _); by apply appended_same.
  - unfold notify_resource_list_changed, try_except.
    rewrite GatewayFacts.bind_run.
    destruct ctx as [session|]; simpl; [|by apply appended_same].
    unfold await_send. destruct (delivery _ _ _) as [e|]; simpl;
      [|by apply appended_same].
    destruct (is_RuntimeError e); by apply appended_same.
  - unfold notify_resource_change. rewrite GatewayFacts.bind_run.
    unfold gets at 1. destruct (bool_decide _); [|by apply appended_same].
    unfold try_except. rewrite GatewayFacts.bind_run.
    destruct ctx as [session|]; simpl; [|by apply appended_same].
    rewrite GatewayFacts.bind_run. unfold lift.
    destruct (AnyUrl uri) as [e|url]; simpl; [by apply appended_same|].
    unfold await_send. destruct (delivery _ _ _) as [e|]; simpl;
      by apply appended_same.
  - destruct ctx as [session|]; simpl; [|by apply appended_same].
    apply (appended_scheduled [Send session PromptListChanged] (Some session) s).
  - destruct ctx as [session|]; simpl; [|by apply appended_same].
    apply (appended_scheduled [Send session ToolListChanged] (Some session) s).
Qed.

Lemma notify_progress_appended token progress total description ctx s :
  appended s (notify_progress token progress total description ctx s).1.
Proof.
  destruct ctx as [session|]; [|by apply appended_same].
  unfold notify_progress, try_except. rewrite GatewayFacts.bind_run. simpl.
  rewrite GatewayFacts.bind_run. simpl.
  destruct (nonempty_description description) as [d|]; simpl.
  - apply (appended_scheduled
             [Send session (ProgressNotification token progress total);
              Send session (LogMessage "info" d)] (Some session) s).
  - apply (appended_scheduled
             [Send session (ProgressNotification token progress total)]
             (Some session) s).
Qed.

Lemma tracked_appended s s' :
  appended s s' -> tracked_pending s -> tracked_pending s'.
Proof.
  intros (calls & ctx & Hl & Ht) Htracked task Hin. rewrite Ht in Hin.
  apply elem_of_union in Hin as [Hin|Hin].
  - destruct (Htracked task Hin) as [t Hp]. exists t. rewrite Hl.
    by apply lookup_app_l_Some.
  - apply elem_of_list_to_set, elem_of_seq in Hin as [Hge Hlt].
    rewrite Hl, lookup_app_r by lia.
    destruct (calls !! (task - length (loop s))) as [c|] eqn:Hc.
    + exists (mkTask c ctx false). by rewrite list_lookup_fmap, Hc.
    + apply lookup_ge_None in Hc. lia.
Qed.

Lemma tracked_finish task r s :
  tracked_pending s -> tracked_pending (finish task r s).
Proof.
  intros Htracked other Hin. simpl in Hin.
  apply elem_of_difference in Hin as [Hin Hne].
  destruct (Htracked other Hin) as [t Hp]. exists t. simpl.
  rewrite list_lookup_insert_ne; [done|]. set_solver.
Qed.

Lemma run_task_shape task s :
  run_task delivery AnyUrl task s = s
  ∨ ∃ s' r, appended s s' ∧ run_task delivery AnyUrl task s = finish task r s'.
Proof.
  unfold run_task. destruct (loop s !! task) as [[t|r]|]; [|by left..].
  right. destruct (cancelling t).
  - exists s, Cancelled. split; [by apply appended_same|done].
  - pose proof (run_coroutine_appended (coro t) (context t) s) as Happ.
    destruct (run_coroutine delivery AnyUrl (coro t) (context t) s) as [s' [e|[]]];
      simpl in Happ; by eexists s', _.
Qed.

Lemma tracked_run_task task s :
  tracked_pending s -> tracked_pending (run_task delivery AnyUrl task s).
Proof.
  intros Htracked.
  destruct (run_task_shape task s) as [->|(s' & r & Happ & ->)]; [done|].
  apply tracked_finish. by apply (tracked_appended s).
Qed.

Lemma tracked_loop_event ev s :
  tracked_pending s -> tracked_pending (loop_event delivery AnyUrl s ev).
Proof.
  destruct ev as [task|c ctx]; simpl; [apply tracked_run_task|].
  apply tracked_appended. apply (appended_scheduled [c] ctx s).
Qed.

Lemma tracked_loop_events evs : ∀ s,
  tracked_pending s ->
  tracked_pending (fold_left (loop_event delivery AnyUrl) evs s).
Proof.
  induction evs as [|ev evs IH]; intros s Htracked; simpl; [done|].
  by apply IH, tracked_loop_event.
Qed.

Lemma shutdown_clears env s : _tasks (shutdown delivery AnyUrl env s).1 = ∅.
Proof.
  unfold shutdown, try_finally.
  by destruct (shutdown_try delivery AnyUrl env s).
Qed.

Lemma tracked_act a s :
  tracked_pending s -> tracked_pending (act delivery AnyUrl s a).
Proof.
  intros Htracked. destruct a as [c ctx|c ctx|token pr total d ctx|ev|env]; simpl.
  - apply (tracked_appended s); [apply (appended_scheduled [c] ctx s)|done].
  - apply (tracked_appended s); [apply run_coroutine_appended|done].
  - apply (tracked_appended s); [apply notify_progress_appended|done].
  - by apply tracked_loop_event.
  - intros task Hin. rewrite shutdown_clears in Hin. set_solver.
Qed.

(** X17. The tracked set holds pending tasks only, and stays so: from a
    state in which every tracked task is pending (the empty set a
    server starts with is one), whatever calls are scheduled or
    awaited, whatever the loop runs, finishes or cancels, and through
    shutdowns, a task that is tracked is one that has not completed. *)
Theorem tracked_set_invariant (s : Server) (actions : list Action) :
  tracked_pending s ->
  tracked_pending (fold_left (act delivery AnyUrl) actions s).
Proof.
  revert s. induction actions as [|a actions IH]; intros s Htracked; simpl;
    [done|].
  by apply IH, tracked_act.
Qed.

(** *** [shutdown] *)

Lemma await_run a s :
  await delivery AnyUrl a s
  = (fold_left (loop_event delivery AnyUrl) (meanwhile a) s,
     match outcome a with Some e => inl e | None => inr tt end).
Proof. reflexivity. Qed.

(** X18. [shutdown] stops at the first step that raises: the steps after
    it are not run, the exception is raised to the caller, and only the
    [finally] block still empties the tracked set.  So when stopping the
    injection server or the transport fails, no task is cancelled or
    awaited: the tasks are left as the loop made them meanwhile, and no
    longer tracked. *)
Theorem shutdown_fails_fast (env : Environment) (s : Server) (e : Exn) :
  (injection_server s = true ->
   outcome (injection_server_stop env) = Some e ->
   shutdown delivery AnyUrl env s
   = (set_tasks (λ _, ∅)
        (fold_left (loop_event delivery AnyUrl)
                   (meanwhile (injection_server_stop env)) s),
      inl e))
  ∧ (injection_server s = false ->
     outcome (transport_shutdown env) = Some e ->
     shutdown delivery AnyUrl env s
     = (set_tasks (λ _, ∅)
          (fold_left (loop_event delivery AnyUrl)
                     (meanwhile (transport_shutdown env)) s),
        inl e)).
Proof.
  split; intros Hinj Hout; unfold shutdown, try_finally, shutdown_try;
    rewrite GatewayFacts.bind_run; unfold gets at 1; rewrite Hinj;
    rewrite GatewayFacts.bind_run.
  - by rewrite await_run, Hout.
  - unfold mret, Eff_ret, eff_ret. rewrite GatewayFacts.bind_run.
    by rewrite await_run, Hout.
Qed.

Lemma set_tasks_empty s : _tasks s = ∅ -> set_tasks (λ _, ∅) s = s.
Proof. destruct s. simpl. by intros ->. Qed.

(** With nothing tracked and the loop idle, [shutdown] leaves the server
    as it is; it ends with the exception of the first await that
    raises, or else with that of the detachment of the observers. *)
Lemma shutdown_nothing_tracked env s :
  meanwhile (injection_server_stop env) = [] ->
  meanwhile (transport_shutdown env) = [] ->
  _tasks s = ∅ ->
  shutdown delivery AnyUrl env s
  = (s,
     let rest := match outcome (transport_shutdown env) with
                 | Some e => inl e
                 | None => inl events_missing
                 end in
     if injection_server s
     then match outcome (injection_server_stop env) with
          | Some e => inl e
          | None => rest
          end
     else rest).
Proof.
  intros Hstop Htransport Hnone. cbv zeta.
  assert (Hrest : ∀ r : Exn + unit,
            (lift r;;
             await delivery AnyUrl (transport_shutdown env);;
             cancel_pending delivery AnyUrl env;;
             call_remove_observer env resource_observer;;
             call_remove_observer env prompt_observer;;
             call_remove_observer env tool_observer;;
             await delivery AnyUrl (runtime_shutdown env)) s
            = (s, match r with
                  | inl e => inl e
                  | inr _ => match outcome (transport_shutdown env) with
                             | Some e => inl e
                             | None => inl events_missing
                             end
                  end)).
  { intros [e|[]]; rewrite GatewayFacts.bind_run; unfold lift; [done|].
    rewrite GatewayFacts.bind_run, await_run, Htransport. simpl.
    destruct (outcome (transport_shutdown env)) as [e|]; [done|].
    rewrite GatewayFacts.bind_run. unfold cancel_pending at 1.
    rewrite GatewayFacts.bind_run. unfold gets at 1.
    destruct (bool_decide_reflect (_tasks s ≠ ∅)) as [Hsome|_]; [done|].
    unfold mret at 1, Eff_ret, eff_ret.
    by rewrite GatewayFacts.bind_run,
               DispatcherFacts.call_remove_resource_observer. }
  unfold shutdown, try_finally, shutdown_try.
  rewrite GatewayFacts.bind_run. unfold gets at 1.
  destruct (injection_server s).
  - pose proof (Hrest (match outcome (injection_server_stop env) with
                       | Some e => inl e
                       | None => inr tt
                       end)) as Hrun.
    rewrite GatewayFacts.bind_run in Hrun |- *. unfold lift in Hrun.
    rewrite await_run, Hstop. simpl. rewrite Hrun. simpl.
    rewrite set_tasks_empty by done.
    by destruct (outcome (injection_server_stop env)).
  - pose proof (Hrest (inr tt)) as Hrun.
    rewrite GatewayFacts.bind_run in Hrun |- *. unfold lift in Hrun.
    unfold mret at 1, Eff_ret, eff_ret. rewrite Hrun. simpl.
    by rewrite set_tasks_empty.
Qed.

(** X19. Shutting down again changes nothing: after any shutdown, a
    second one during which the loop is idle leaves the server exactly
    as the first left it, whatever its collaborators do; when its awaits
    return it ends, as every shutdown that gets that far, with the
    [AttributeError] of the detachment of the observers. *)
Theorem shutdown_again (first second : Environment) (s : Server) :
  meanwhile (injection_server_stop second) = [] ->
  meanwhile (transport_shutdown second) = [] ->
  let down := (shutdown delivery AnyUrl first s).1 in
  (shutdown delivery AnyUrl second down).1 = down
  ∧ (outcome (injection_server_stop second) = None ->
     outcome (transport_shutdown second) = None ->
     (shutdown delivery AnyUrl second down).2 = inl events_missing).
Proof.
  intros Hstop Htransport down.
  rewrite (shutdown_nothing_tracked second down Hstop Htransport)
    by apply shutdown_clears.
  split; [done|]. intros -> ->. simpl. by destruct (injection_server down).
Qed.

(** *** Tasks cancelled at shutdown deliver nothing *)

Lemma calm_bind {A B} (c : Eff Server A) (k : A -> Eff Server B) :
  calm_step c -> (∀ a, calm_step (k a)) -> calm_step (c ≫= k).
Proof.
  intros Hc Hk s Htracked. rewrite GatewayFacts.bind_run.
  destruct (Hc s Htracked) as (Ht & Ho & Hl).
  destruct (c s) as [s1 [e|a]]; simpl in *; [done|].
  destruct (Hk a s1 Ht) as (Ht' & Ho' & Hl').
  split_and!; [done|congruence|congruence].
Qed.

Lemma calm_ret {A} (a : A) : calm_step (mret a : Eff Server A).
Proof. by intros s Htracked. Qed.

Lemma calm_gets {A} (f : Server -> A) : calm_step (gets f).
Proof. by intros s Htracked. Qed.

Lemma spawn_only evs : ∀ s,
  Forall (λ ev, is_Run ev = false) evs ->
  let s' := fold_left (loop_event delivery AnyUrl) evs s in
  (∃ new, loop s' = loop s ++ new) ∧ outbox s' = outbox s ∧ log s' = log s.
Proof.
  induction evs as [|ev evs IH]; intros s Hall; cbv zeta; simpl.
  - split_and!; try done. exists []. by rewrite app_nil_r.
  - apply Forall_cons in Hall as [Hev Hall].
    destruct ev as [task|c ctx]; [done|].
    destruct (IH (loop_event delivery AnyUrl s (Spawn c ctx)) Hall)
      as ([new Hnew] & Ho & Hl).
    simpl in *. split_and!; [|done|done].
    eexists. rewrite Hnew. by rewrite <- app_assoc.
Qed.

Lemma calm_await a : no_turn a -> calm_step (await delivery AnyUrl a).
Proof.
  intros Hno s Htracked. rewrite await_run. simpl.
  destruct (spawn_only _ s Hno) as (_ & Ho & Hl).
  split_and!; [by apply tracked_loop_events|done|done].
Qed.

(** Tasks whose cancellation was requested end without sending or
    logging. *)
Lemma run_cancelled given : ∀ s,
  (∀ task t, task ∈ given -> loop s !! task = Some (Pending t) ->
             cancelling t = true) ->
  let s' := fold_left (λ s task, run_task delivery AnyUrl task s) given s in
  outbox s' = outbox s ∧ log s' = log s.
Proof.
  induction given as [|task given IH]; intros s Hall; cbv zeta; simpl; [done|].
  assert (Hrun : run_task delivery AnyUrl task s = s
                 ∨ run_task delivery AnyUrl task s = finish task Cancelled s).
  { unfold run_task. destruct (loop s !! task) as [[t|r]|] eqn:Hl; [|by left..].
    rewrite (Hall task t); [by right|set_solver|done]. }
  destruct Hrun as [->| ->].
  - apply IH. intros other t Hin. apply Hall. set_solver.
  - destruct (IH (finish task Cancelled s)) as [Ho Hl]; [|done].
    intros other t Hin. simpl.
    destruct (decide (task = other)) as [->|Hne].
    + intros Hp. apply lookup_lt_Some in Hp as Hlt.
      rewrite length_insert in Hlt.
      by rewrite list_lookup_insert_eq in Hp.
    + rewrite list_lookup_insert_ne by done. apply Hall. set_solver.
Qed.

Lemma tracked_run_given given : ∀ s,
  tracked_pending s ->
  tracked_pending (fold_left (λ s task, run_task delivery AnyUrl task s) given s).
Proof.
  induction given as [|task given IH]; intros s Htracked; simpl; [done|].
  by apply IH, tracked_run_task.
Qed.

Lemma calm_cancel_pending env :
  no_turn (gather env) -> calm_step (cancel_pending delivery AnyUrl env).
Proof.
  intros Hno s Htracked.
  set (s1 := set_loop
               (imap (λ task st,
                  if bool_decide (task ∈ _tasks s) then cancel st else st)) s).
  set (s2 := fold_left (loop_event delivery AnyUrl) (meanwhile (gather env)) s1).
  set (s3 := fold_left (λ s task, run_task delivery AnyUrl task s)
                       (elements (_tasks s1)) s2).
  assert (Hrun : cancel_pending delivery AnyUrl env s
                 = if bool_decide (_tasks s ≠ ∅)
                   then match outcome (gather env) with
                        | Some e => (s2, inl e)
                        | None => (set_tasks (λ _, ∅) s3, inr tt)
                        end
                   else (s, inr tt)).
  { unfold cancel_pending. rewrite GatewayFacts.bind_run. unfold gets at 1.
    destruct (bool_decide (_tasks s ≠ ∅)); [|done].
    subst s3 s2 s1. unfold await_gather, await, mbind, Eff_bind, eff_bind.
    simpl. by destruct (outcome (gather env)). }
  rewrite Hrun. destruct (bool_decide (_tasks s ≠ ∅)); [|done].
  assert (Htracked1 : tracked_pending s1).
  { intros task Hin. destruct (Htracked task Hin) as [t Ht].
    subst s1. simpl. rewrite list_lookup_imap, Ht. simpl.
    destruct (bool_decide _); by eexists. }
  assert (Hcancelled : ∀ task t, task ∈ _tasks s ->
            loop s1 !! task = Some (Pending t) -> cancelling t = true).
  { intros task t Hin. subst s1. simpl. rewrite list_lookup_imap.
    destruct (loop s !! task) as [[t0|r]|]; simpl; try done.
    - rewrite bool_decide_eq_true_2 by done. simpl. by intros [= <-].
    - by destruct (bool_decide _). }
  destruct (spawn_only _ s1 Hno) as ([new Hnew] & Ho & Hl).
  fold s2 in Hnew, Ho, Hl.
  pose proof (tracked_loop_events (meanwhile (gather env)) s1 Htracked1)
    as Htracked2.
  fold s2 in Htracked2.
  destruct (outcome (gather env)) as [e|]; simpl; [done|].
  destruct (run_cancelled (elements (_tasks s1)) s2) as [Ho3 Hl3].
  { intros task t Hin Hp. apply elem_of_elements in Hin.
    apply (Hcancelled task t Hin).
    destruct (Htracked1 task Hin) as [t1 Ht1].
    rewrite Hnew, (lookup_app_l_Some _ new _ _ Ht1) in Hp.
    by injection Hp as <-. }
  fold s3 in Ho3, Hl3.
  split_and!; [|simpl; by rewrite Ho3, Ho|simpl; by rewrite Hl3, Hl].
  intros task Hin. simpl in Hin. set_solver.
Qed.

Lemma calm_remove_observer env k : calm_step (call_remove_observer env k).
Proof.
  intros s Htracked.
  by destruct (DispatcherFacts.call_remove_observer_raises env k s)
    as (e & -> & _).
Qed.

(** X20. Notifications still pending when the server shuts down are
    dropped: if no task gets its turn while [shutdown] awaits its
    collaborators, [shutdown] hands nothing to any session and logs
    nothing, whether it returns or raises. *)
Theorem shutdown_delivers_nothing (env : Environment) (s : Server) :
  tracked_pending s ->
  no_turn (injection_server_stop env) ->
  no_turn (transport_shutdown env) ->
  no_turn (gather env) ->
  no_turn (runtime_shutdown env) ->
  let after := (shutdown delivery AnyUrl env s).1 in
  outbox after = outbox s ∧ log after = log s.
Proof.
  intros Htracked Hstop Htransport Hgather Hruntime.
  assert (Hcalm : calm_step (shutdown_try delivery AnyUrl env)).
  { unfold shutdown_try.
    apply calm_bind; [apply calm_gets|]. intros has.
    apply calm_bind; [destruct has; [by apply calm_await|apply calm_ret]|].
    intros _. apply calm_bind; [by apply calm_await|].
    intros _. apply calm_bind; [by apply calm_cancel_pending|].
    intros _. apply calm_bind; [apply calm_remove_observer|].
    intros _. apply calm_bind; [apply calm_remove_observer|].
    intros _. apply calm_bind; [apply calm_remove_observer|].
    intros _. by apply calm_await. }
  destruct (Hcalm s Htracked) as (_ & Ho & Hl).
  cbv zeta. unfold shutdown, try_finally.
  by destruct (shutdown_try delivery AnyUrl env s).
Qed.

End More.

(** *** Construction, client information and the injection server *)

Section Built.

Variable SSEServer_init : list (string * Json) -> option Exn.
Variable register_handlers : option Exn.
Variable Observer_init : ObserverKind -> option Exn.
Variable add_observer : ObserverKind -> option Exn.
Variable client_params : Session -> option InitializeRequestParams.

(** X21. [__init__] never returns a server: a transport type other than
    ["stdio"] and ["sse"] is refused with a [ValueError] naming it, and
    when the transport is created, the handlers are registered and the
    observers are constructed, [_setup_observers] raises the
    [AttributeError] of reading [events] on the resource observer,
    whatever the runtime, the options and [enable_injection]. *)
Theorem init_raises (transport_type : string)
    (transport_options : option (list (string * Json)))
    (enable_injection : bool) :
  let built := init SSEServer_init register_handlers Observer_init add_observer
                    transport_type transport_options enable_injection in
  (∃ e, built = inl e)
  ∧ (transport_type ≠ "stdio" -> transport_type ≠ "sse" ->
     built = inl (mkExn ValueErrorC
                        ("Unknown transport type: " +:+ transport_type)))
  ∧ (is_Some (match _create_transport SSEServer_init transport_type
                      (default [] transport_options) with
              | inr t => Some t
              | inl _ => None
              end) ->
     register_handlers = None ->
     (∀ k, Observer_init k = None) ->
     built = inl events_missing).
Proof.
  cbv zeta. unfold init, _setup_observers.
  destruct (_create_transport SSEServer_init transport_type
              (default [] transport_options)) as [e|t] eqn:Htransport.
  - split_and!; [by eexists| |by intros []].
    intros Hstdio Hsse. unfold _create_transport in Htransport.
    destruct (String.eqb_spec transport_type "stdio"); [done|].
    destruct (String.eqb_spec transport_type "sse"); [done|].
    congruence.
  - split_and!.
    + destruct register_handlers; [by eexists|].
      destruct (Observer_init resource_observer); [by eexists|].
      destruct (Observer_init prompt_observer); [by eexists|].
      destruct (Observer_init tool_observer); by eexists.
    + intros Hstdio Hsse. unfold _create_transport in Htransport.
      destruct (String.eqb_spec transport_type "stdio"); [done|].
      by destruct (String.eqb_spec transport_type "sse").
    + intros _ -> Hobs. by rewrite !Hobs.
Qed.

(** X22. [ConfigInjectionServer.stop] can be called at any time and any
    number of times: on a server that was never started or is stopped
    already it does nothing and returns; after a start it puts the
    server back as it was before.  When the awaited [shutdown] raises,
    the [uvicorn] server is kept, told to exit, so that a later [stop]
    tries again. *)
Theorem injection_stop_idempotent (inj : ConfigInjectionServer)
    (again : option Exn) (e : Exn) :
  let stopped := (injection_stop None inj).1 in
  _server stopped = None
  ∧ injection_stop again stopped = (stopped, inr tt)
  ∧ (_server inj = None ->
     (injection_stop None (injection_start StdioServer inj).1) = (inj, inr tt))
  ∧ (is_Some (_server inj) ->
     injection_stop (Some e) inj
     = (set_server (Some (mkUvicorn true)) inj, inl e)).
Proof.
  cbv zeta. unfold injection_stop, injection_start. destruct inj as [h p [u|]];
    simpl; by split_and!.
Qed.

(** X23. [get_client_info] and the [client_info] property agree:
    [get_client_info] returns the client's name and version exactly when
    [client_info] has them, and in every other case (no session, or a
    session without initialization parameters) it raises the one
    [RuntimeError] "Failed to get client information".  Neither changes
    the server. *)
Theorem get_client_info_agrees (ctx : option Session) (s : Server) :
  match client_info client_params ctx s with
  | (_, inr (Some info)) => get_client_info client_params ctx s = (s, inr info)
  | _ =>
      get_client_info client_params ctx s
      = (s, inl (mkExn RuntimeErrorC "Failed to get client information"))
  end
  ∧ (client_info client_params ctx s).1 = s
  ∧ (ctx = None ->
     client_info client_params ctx s
     = (s, inl (mkExn RuntimeErrorC "No active request context"))).
Proof.
  unfold client_info, get_client_info, try_except.
  destruct ctx as [session|]; [|done].
  rewrite !GatewayFacts.bind_run. simpl.
  by destruct (client_params session).
Qed.

End Built.

(** *** On the sample servers *)

Lemma notify_resource_change_failures_witness :
  notify_resource_change Samples.delivers Samples.any_url "text://other" None
    Samples.subscribed_elsewhere
  = (error_logged "Failed to notify subscribers about resource change: text://other"
                  (mkExn RuntimeErrorC "No active request context")
                  Samples.subscribed_elsewhere,
     inr tt).
Proof.
  apply (notify_resource_change_failures Samples.delivers Samples.any_url
           "text://other" Samples.subscribed_elsewhere).
  apply elem_of_dom. vm_compute. eauto.
Defined.

Lemma tracked_set_invariant_witness :
  tracked_pending
    (fold_left (act Samples.delivers Samples.any_url)
       [ Schedule NotifyPromptListChanged (Some 7);
         Tick (Run 0);
         Progress "t" 0.5%float None (Some "half") (Some 7);
         Tick (Run 1);
         Shutdown still ]
       Samples.idle).
Proof.
  apply (tracked_set_invariant Samples.delivers Samples.any_url Samples.idle).
  intros task Hin. simpl in Hin. set_solver.
Defined.

Lemma shutdown_fails_fast_witness :
  shutdown Samples.delivers Samples.any_url transport_fails Samples.idle
  = (Samples.idle, inl (mkExn OtherException "transport")).
Proof.
  apply (proj2 (shutdown_fails_fast Samples.delivers Samples.any_url
                  transport_fails Samples.idle
                  (mkExn OtherException "transport")));
    reflexivity.
Defined.

Lemma shutdown_again_witness :
  let down := (shutdown Samples.delivers Samples.any_url Samples.calm
                        Samples.two_in_flight).1 in
  shutdown Samples.delivers Samples.any_url still down
  = (down, inl events_missing).
Proof.
  cbv zeta.
  destruct (shutdown_again Samples.delivers Samples.any_url Samples.calm still
              Samples.two_in_flight) as [Hstate Hraise]; [reflexivity..|].
  rewrite <- Hstate at 2. rewrite <- Hraise by reflexivity.
  by destruct (shutdown _ _ still _).
Defined.

Lemma shutdown_delivers_nothing_witness :
  let after := (shutdown Samples.delivers Samples.any_url still
                         Samples.two_in_flight).1 in
  outbox after = [] ∧ log after = [].
Proof.
  apply (shutdown_delivers_nothing Samples.delivers Samples.any_url still
           Samples.two_in_flight); try by constructor.
  intros task Hin. unfold Samples.two_in_flight in *. simpl in *.
  apply elem_of_union in Hin as [Hin|Hin]; apply elem_of_singleton in Hin as ->;
    by eexists.
Defined.

Lemma init_raises_witness :
  init (λ _, None) None (λ _, None) (λ _, None) "stdio" None true
  = inl events_missing.
Proof.
  apply (init_raises (λ _, None) None (λ _, None) (λ _, None) "stdio" None true);
    [by eexists | reflexivity | reflexivity].
Defined.

Lemma injection_stop_idempotent_witness :
  injection_stop None
    (injection_start StdioServer (mkConfigInjectionServer "localhost" 8765 None)).1
  = (mkConfigInjectionServer "localhost" 8765 None, inr tt).
Proof.
  apply (injection_stop_idempotent (mkConfigInjectionServer "localhost" 8765 None)
           None (mkExn OtherException "x")).
  reflexivity.
Defined.

(** The client that introduced itself is known on its session only. *)
Example get_client_info_sample :
  get_client_info sample_params (Some 7) Samples.idle
  = (Samples.idle, inr (mkImplementation "test-client" "1.0"))
  ∧ get_client_info sample_params (Some 8) Samples.idle
    = (Samples.idle, inl (mkExn RuntimeErrorC "Failed to get client information"))
  ∧ client_info sample_params (Some 8) Samples.idle = (Samples.idle, inr None).
Proof. by split_and!. Qed.

End DispatcherMore.
